(** * GPA-COMMAND: the metrics engine ([core/metrics.py]) and the
    normalisation helpers ([core/normalize.py]).

    Conventions of this embedding:
    - pandas float columns are modelled as [Q]; a cell that may be NaN
      (after [pd.to_numeric(..., errors="coerce")], a failed lookup of a
      left merge, the mean of an empty group) is an [option Q], [None]
      standing for NaN;
    - calendar dates are day ordinals in [Z] ([date.toordinal()]); a cell
      after [pd.to_datetime(..., errors="coerce")] is an [option Z], [None]
      standing for NaT (missing or unparseable);
    - string cells are [string], holding the UTF-8 encoding of the Python
      [str]; a string cell that may be NA is an [option string]. *)

From Stdlib Require Import QArith Qround Qminmax ZArith List String Ascii Bool Lia Lqa.
Import ListNotations.
Open Scope Q_scope.

(** Helpers shared by the embedding. *)

(** [Series.sum()]: NaN entries are skipped, the empty sum is 0. *)
Fixpoint sum_skipna (xs : list (option Q)) : Q :=
  match xs with
  | [] => 0
  | Some x :: xs' => x + sum_skipna xs'
  | None :: xs' => sum_skipna xs'
  end.

Fixpoint count_notna (xs : list (option Q)) : nat :=
  match xs with
  | [] => O
  | Some _ :: xs' => S (count_notna xs')
  | None :: xs' => count_notna xs'
  end.

(** [Series.mean()]: NaN entries are skipped; with no non-NaN entry the
    mean is NaN. *)
Definition mean_skipna (xs : list (option Q)) : option Q :=
  match count_notna xs with
  | O => None
  | n => Some (sum_skipna xs / inject_Z (Z.of_nat n))
  end.

Module Metrics.

(** A subject row as [compute_metrics] reads it: [exam_date] already
    passed through [pd.to_datetime(..., errors="coerce")]. *)
Record Subject := mkSubject {
  s_id : string;
  s_name : string;
  s_credits : Q;
  s_confidence : Q;
  s_exam_date : option Z
}.

Record LogEntry := mkLog {
  l_subject_id : string;
  l_hours : option Q;
  l_score : option Q
}.

Record TestEntry := mkTest {
  t_subject_id : string;
  t_score : option Q
}.

(** The settings dict returned by [load_settings()]: [None] is an absent
    key.  [default_exam_date], when present, is the parsed date. *)
Record Settings := mkSettings {
  logs_weight : option Q;
  tests_weight : option Q;
  default_exam_date : option Z
}.

(** [date(2025, 9, 5).toordinal()], [DEFAULT_SETTINGS["default_exam_date"]]. *)
Definition DEFAULT_EXAM_DATE : Z := 739499%Z.

Definition get_or {A} (o : option A) (d : A) : A :=
  match o with Some x => x | None => d end.

(** [calc_priority(credits, confidence)]. *)
Definition calc_priority (credits confidence : Q) : Q :=
  (10 - confidence) * credits.

(** [days_between(d1, d2)]: [(d2 - d1).days]. *)
Definition days_between (d1 d2 : Z) : Z := (d2 - d1)%Z.

(** [df.groupby(key)[col].agg()].  pandas also sorts the group keys; the
    order of the aggregate table does not matter to the left merge that
    consumes it, so the keys are kept in the order [nodup] leaves them. *)
Definition groupby {R B} (key : R -> string) (agg : list R -> B)
    (rows : list R) : list (string * B) :=
  map (fun k => (k, agg (filter (fun r => String.eqb (key r) k) rows)))
      (nodup string_dec (map key rows)).

(** [df.merge(agg, left_on="id", right_on="subject_id", how="left")]:
    each left row is paired with every matching aggregate row, or kept once
    with NaN when none matches. *)
Definition merge_left {R B} (key : R -> string) (set : R -> option B -> R)
    (df : list R) (agg : list (string * B)) : list R :=
  flat_map (fun r =>
    match filter (fun kv => String.eqb (fst kv) (key r)) agg with
    | [] => [set r None]
    | ms => map (fun kv => set r (Some (snd kv))) ms
    end) df.

(** The frame while the three aggregates are merged in. *)
Record Joined := mkJoined {
  j_subj : Subject;
  j_priority : Q;
  j_hours : option Q;
  j_tests_avg : option Q;
  j_logs_avg : option Q
}.

(** One output row of [compute_metrics]. *)
Record Metric := mkMetric {
  m_subj : Subject;
  m_priority : Q;
  m_hours : Q;
  m_tests_avg : option Q;
  m_logs_avg : option Q;
  m_avg_score : Q;
  m_days_left : Z;
  m_priority_gap : Q
}.

Definition set_hours (j : Joined) (v : option Q) : Joined :=
  mkJoined (j_subj j) (j_priority j) v (j_tests_avg j) (j_logs_avg j).
Definition set_tests_avg (j : Joined) (v : option (option Q)) : Joined :=
  mkJoined (j_subj j) (j_priority j) (j_hours j)
           (match v with Some x => x | None => None end) (j_logs_avg j).
Definition set_logs_avg (j : Joined) (v : option (option Q)) : Joined :=
  mkJoined (j_subj j) (j_priority j) (j_hours j) (j_tests_avg j)
           (match v with Some x => x | None => None end).

Definition j_key (j : Joined) : string := s_id (j_subj j).

(** [weighted_avg(row)] with the weights read from the settings. *)
Definition weighted_avg (w_logs w_tests : Q) (logs_avg tests_avg : option Q) : Q :=
  match logs_avg, tests_avg with
  | Some la, Some ta => la * w_logs + ta * w_tests
  | Some la, None => la
  | None, Some ta => ta
  | None, None => 0
  end.

(** [compute_metrics(subjects, logs, tests)].  The function reads two
    things besides its arguments: the settings ([load_settings()]) and the
    current date ([date.today()]); both are explicit parameters here. *)
Definition compute_metrics (settings : Settings) (today : Z)
    (subjects : list Subject) (logs : list LogEntry) (tests : list TestEntry)
    : list Metric :=
  let w_logs := get_or (logs_weight settings) (7 # 10) in
  let w_tests := get_or (tests_weight settings) (Qmax 0 (1 - w_logs)) in
  let hours := groupby l_subject_id (fun g => sum_skipna (map l_hours g)) logs in
  let testsavg := groupby t_subject_id (fun g => mean_skipna (map t_score g)) tests in
  let logsavg := groupby l_subject_id (fun g => mean_skipna (map l_score g)) logs in
  let df0 := map (fun s => mkJoined s (calc_priority (s_credits s) (s_confidence s))
                                    None None None) subjects in
  let df1 := merge_left j_key set_hours df0 hours in
  let df2 := merge_left j_key set_tests_avg df1 testsavg in
  let df3 := merge_left j_key set_logs_avg df2 logsavg in
  let default_exam := get_or (default_exam_date settings) DEFAULT_EXAM_DATE in
  map (fun j =>
    let avg := weighted_avg w_logs w_tests (j_logs_avg j) (j_tests_avg j) in
    let exam := get_or (s_exam_date (j_subj j)) default_exam in
    mkMetric (j_subj j) (j_priority j) (get_or (j_hours j) 0)
             (j_tests_avg j) (j_logs_avg j) avg
             (Z.max 0 (days_between today exam))
             (j_priority j * (1 - avg / 100))) df3.

(** [weighted_readiness(df_metrics)]. *)
Definition weighted_readiness (ms : list Metric) : Q :=
  match ms with
  | [] => 0
  | _ =>
    let num := fold_right Qplus 0 (map (fun m => m_priority m * (m_avg_score m / 100)) ms) in
    let den := fold_right Qplus 0 (map m_priority ms) in
    if Qeq_bool den 0 then 0 else num / den
  end.

(** The rows a subject's aggregates are computed from. *)
Definition logs_of (logs : list LogEntry) (id : string) : list LogEntry :=
  filter (fun l => String.eqb (l_subject_id l) id) logs.
Definition tests_of (tests : list TestEntry) (id : string) : list TestEntry :=
  filter (fun t => String.eqb (t_subject_id t) id) tests.

(** The output row of one subject, read off the subject and its own rows
    (the characterisation of [compute_metrics] proved in [MetricsFacts]). *)
Definition metric_of (settings : Settings) (today : Z)
    (logs : list LogEntry) (tests : list TestEntry) (s : Subject) : Metric :=
  let w_logs := get_or (logs_weight settings) (7 # 10) in
  let w_tests := get_or (tests_weight settings) (Qmax 0 (1 - w_logs)) in
  let la := mean_skipna (map l_score (logs_of logs (s_id s))) in
  let ta := mean_skipna (map t_score (tests_of tests (s_id s))) in
  let pr := calc_priority (s_credits s) (s_confidence s) in
  let avg := weighted_avg w_logs w_tests la ta in
  let exam := get_or (s_exam_date s) (get_or (default_exam_date settings) DEFAULT_EXAM_DATE) in
  mkMetric s pr (sum_skipna (map l_hours (logs_of logs (s_id s)))) ta la avg
           (Z.max 0 (days_between today exam)) (pr * (1 - avg / 100)).

(** The two sums [weighted_readiness] divides. *)
Definition readiness_num (ms : list Metric) : Q :=
  fold_right Qplus 0 (map (fun m => m_priority m * (m_avg_score m / 100)) ms).
Definition readiness_den (ms : list Metric) : Q :=
  fold_right Qplus 0 (map m_priority ms).

(** A row with its [days_left] column blanked, to compare rows on every
    other column. *)
Definition forget_days_left (m : Metric) : Metric :=
  mkMetric (m_subj m) (m_priority m) (m_hours m) (m_tests_avg m) (m_logs_avg m)
           (m_avg_score m) 0 (m_priority_gap m).

End Metrics.

(** ** [core/normalize.py] and [sanitize_subjects_for_editor] *)

Module Normalize.

Definition Qlt_bool (x y : Q) : bool := negb (Qle_bool y x).

Definition fillna_str (o : option string) : string :=
  match o with Some s => s | None => EmptyString end.

(** A Python [str] is modelled by its UTF-8 encoding: a Rocq [string] is a
    byte string, and [utf8_chars] cuts it into the encodings of its
    characters (the lead byte gives the length; a stray continuation byte
    is a piece of its own). *)
Definition utf8_width (c : ascii) : nat :=
  let n := nat_of_ascii c in
  if (n <? 192)%nat then 1 else if (n <? 224)%nat then 2
  else if (n <? 240)%nat then 3 else if (n <? 248)%nat then 4 else 1.

Fixpoint utf8_split (fuel : nat) (l : list ascii) : list (list ascii) :=
  match fuel, l with
  | _, [] => []
  | O, _ => [l]
  | S f, c :: _ => firstn (utf8_width c) l :: utf8_split f (skipn (utf8_width c) l)
  end.

Definition utf8_chars (s : string) : list (list ascii) :=
  utf8_split (String.length s) (list_ascii_of_string s).

(** The characters Python's [str.strip()] removes ([str.isspace()]):
    U+0009-U+000D, U+001C-U+0020, U+0085, U+00A0, U+1680, U+2000-U+200A,
    U+2028, U+2029, U+202F, U+205F and U+3000, given by their UTF-8
    encodings. *)
Definition is_py_space_char (ch : list ascii) : bool :=
  match map nat_of_ascii ch with
  | [n] => ((9 <=? n) && (n <=? 13))%nat || ((28 <=? n) && (n <=? 32))%nat
  | [a; b] => ((a =? 194) && ((b =? 133) || (b =? 160)))%nat
  | [a; b; c] =>
    ((a =? 225) && (b =? 154) && (c =? 128))%nat ||
    ((a =? 226) && (b =? 128) &&
       (((128 <=? c) && (c <=? 138)) || (c =? 168) || (c =? 169) || (c =? 175)))%nat ||
    ((a =? 226) && (b =? 129) && (c =? 159))%nat ||
    ((a =? 227) && (b =? 128) && (c =? 128))%nat
  | _ => false
  end.

(** [s.strip() == '']: every character is whitespace. *)
Definition strip_is_empty (s : string) : bool := forallb is_py_space_char (utf8_chars s).

Definition hex_digit (n : Z) : ascii :=
  if (n <? 10)%Z then ascii_of_nat (48 + Z.to_nat n)
  else ascii_of_nat (87 + Z.to_nat n).

(** The [k] low hexadecimal digits of [n], most significant first
    (["%0kx" % (n mod 16^k)]). *)
Fixpoint hex_string (n : Z) (k : nat) : string :=
  match k with
  | O => EmptyString
  | S k' => hex_string (n / 16) k' ++ String (hex_digit (n mod 16)) EmptyString
  end.

(** [str(uuid.UUID(int=u))]: 32 hex digits grouped 8-4-4-4-12. *)
Definition uuid_str (u : Z) : string :=
  hex_string (Z.shiftr u 96) 8 ++ "-" ++
  hex_string (Z.shiftr u 80) 4 ++ "-" ++
  hex_string (Z.shiftr u 64) 4 ++ "-" ++
  hex_string (Z.shiftr u 48) 4 ++ "-" ++
  hex_string u 12.

(** The id column of the three normalisers:
    [out["id"] = out["id"].astype("string").fillna('')], then every row
    whose stripped id is empty receives, in row order, the next value of
    [[str(uuid.uuid4()) for _ in range(mask_blank.sum())]].  [rand k] is the
    128-bit value of the [k]-th [uuid.uuid4()] call. *)
Fixpoint assign_ids (rand : nat -> Z) (k : nat) (ids : list string) : list string :=
  match ids with
  | [] => []
  | i :: rest =>
    if strip_is_empty i then uuid_str (rand k) :: assign_ids rand (S k) rest
    else i :: assign_ids rand k rest
  end.

Definition normalize_ids (rand : nat -> Z) (ids : list (option string)) : list string :=
  assign_ids rand 0 (map fillna_str ids).

(** [Series.round()] (half to even) of a float holding [q]. *)
Definition py_round (q : Q) : Z :=
  let f := Qfloor q in
  let r := q - inject_Z f in
  if Qlt_bool r (1 # 2) then f
  else if Qlt_bool (1 # 2) r then (f + 1)%Z
  else if Z.even f then f else (f + 1)%Z.

(** The id a normaliser leaves in a row: the original id when it is not
    blank, else the string of some [uuid.uuid4()] value. *)
Definition id_kept_or_fresh (rand : nat -> Z) (raw : option string) (out : string) : Prop :=
  if strip_is_empty (fillna_str raw) then exists k, out = uuid_str (rand k)
  else out = fillna_str raw.

(** [.astype(int)] of a float64: a cast to int64 (numpy performs it
    without a range check).  It truncates toward zero; when the truncated
    value does not fit in 64 bits the cast gives -2^63, the x86-64
    result of an overflowing conversion.  An all-integer column is cast
    from its integer type instead, which gives the same value for the
    values in int64 range. *)
Definition INT64_MIN : Z := (- 2 ^ 63)%Z.

Definition py_int (q : Q) : Z :=
  let t := Z.quot (Qnum q) (Zpos (Qden q)) in
  if ((INT64_MIN <=? t) && (t <? 2 ^ 63))%Z then t else INT64_MIN.

(** [.clip(lo, hi)] on integers. *)
Definition clip (lo hi x : Z) : Z := Z.min hi (Z.max lo x).

Definition Qclip (lo hi x : Q) : Q := Qmin hi (Qmax lo x).

(** A raw subject row: the numeric cells after
    [pd.to_numeric(..., errors="coerce")], the date after
    [pd.to_datetime(..., errors="coerce")], the string cells after
    [.astype("string")]; [None] is NaN / NaT / NA, also for a column the
    frame lacks ([_ensure_columns] fills it with NaN). *)
Record RawSubject := mkRawSubject {
  rs_id : option string;
  rs_name : option string;
  rs_credits : option Q;
  rs_confidence : option Q;
  rs_exam_date : option Z;
  rs_user_id : option string
}.

Record NSubject := mkNSubject {
  ns_id : string;
  ns_name : string;
  ns_credits : Z;
  ns_confidence : Z;
  ns_exam_date : option Z;
  ns_user_id : string
}.

Definition norm_credits (c : option Q) : Z :=
  py_int (match c with Some x => x | None => 1 end).

Definition norm_confidence (c : option Q) : Z :=
  clip 0 10 (py_round (match c with Some x => x | None => 5 end)).

(** [normalize_subjects_df(df, default_exam, user_id)]; [default_exam] is
    [pd.to_datetime(default_exam, errors="coerce")]. *)
Definition normalize_subjects_df (rand : nat -> Z) (default_exam : option Z)
    (user_id : option string) (df : list RawSubject) : list NSubject :=
  map (fun '(id, r) =>
    mkNSubject id (fillna_str (rs_name r))
      (norm_credits (rs_credits r)) (norm_confidence (rs_confidence r))
      (match rs_exam_date r with Some d => Some d | None => default_exam end)
      (match user_id with Some u => u | None => fillna_str (rs_user_id r) end))
    (combine (normalize_ids rand (map rs_id df)) df).

Record RawLog := mkRawLog {
  rl_id : option string;
  rl_date : option Z;
  rl_subject_id : option string;
  rl_hours : option Q;
  rl_task : option string;
  rl_score : option Q;
  rl_notes : option string;
  rl_user_id : option string
}.

Record NLog := mkNLog {
  nl_id : string;
  nl_date : option Z;
  nl_subject_id : string;
  nl_hours : Q;
  nl_task : string;
  nl_score : option Q;
  nl_notes : string;
  nl_user_id : option string
}.

(** [out.loc[(out["score"] < 0) | (out["score"] > 100), "score"] = np.nan]. *)
Definition norm_log_score (s : option Q) : option Q :=
  match s with
  | Some x => if Qlt_bool x 0 || Qlt_bool 100 x then None else Some x
  | None => None
  end.

(** [normalize_logs_df(df, user_id)]. *)
Definition normalize_logs_df (rand : nat -> Z) (user_id : option string)
    (df : list RawLog) : list NLog :=
  map (fun '(id, r) =>
    mkNLog id (rl_date r) (fillna_str (rl_subject_id r))
      (match rl_hours r with Some h => h | None => 0 end)
      (fillna_str (rl_task r)) (norm_log_score (rl_score r)) (fillna_str (rl_notes r))
      (match user_id with Some u => Some u | None => rl_user_id r end))
    (combine (normalize_ids rand (map rl_id df)) df).

Record RawTest := mkRawTest {
  rt_id : option string;
  rt_date : option Z;
  rt_subject_id : option string;
  rt_score : option Q;
  rt_difficulty : option Q;
  rt_notes : option string;
  rt_user_id : option string
}.

Record NTest := mkNTest {
  nt_id : string;
  nt_date : option Z;
  nt_subject_id : string;
  nt_score : option Q;
  nt_difficulty : Z;
  nt_notes : string;
  nt_user_id : option string
}.

(** [pd.to_numeric(out["score"], errors="coerce").clip(0, 100)]: NaN stays
    NaN. *)
Definition norm_test_score (s : option Q) : option Q :=
  match s with Some x => Some (Qclip 0 100 x) | None => None end.

(** [normalize_tests_df(df, user_id)]. *)
Definition normalize_tests_df (rand : nat -> Z) (user_id : option string)
    (df : list RawTest) : list NTest :=
  map (fun '(id, r) =>
    mkNTest id (rt_date r) (fillna_str (rt_subject_id r)) (norm_test_score (rt_score r))
      (clip 1 5 (py_round (match rt_difficulty r with Some x => x | None => 3 end)))
      (fillna_str (rt_notes r))
      (match user_id with Some u => Some u | None => rt_user_id r end))
    (combine (normalize_ids rand (map rt_id df)) df).




End Normalize.

(** ** The merge helpers of [core/normalize.py] *)

Module Merge.

(** A cell of an object column: [None] is NaN. *)
Definition Cell := option string.

Definition cell_eqb (a b : Cell) : bool :=
  match a, b with
  | Some x, Some y => String.eqb x y
  | None, None => true
  | _, _ => false
  end.

(** [.astype(str)] of a cell: NaN becomes ["nan"]. *)
Definition str_cell (c : Cell) : string :=
  match c with Some s => s | None => "nan"%string end.

(** A row maps column names to cells; a frame has its column list and its
    rows. *)
Definition Row := list (string * Cell).

Record Frame := mkFrame {
  f_cols : list string;
  f_rows : list Row
}.

Definition lookup (c : string) (r : Row) : Cell :=
  match find (fun kv => String.eqb (fst kv) c) r with
  | Some kv => snd kv
  | None => None
  end.

Definition mem (c : string) (cols : list string) : bool :=
  existsb (String.eqb c) cols.

(** [_ensure_columns(df, cols)]: every missing column is added, NaN. *)
Definition ensure_columns (f : Frame) (cols : list string) : Frame :=
  let missing := filter (fun c => negb (mem c (f_cols f))) cols in
  mkFrame (f_cols f ++ missing)
          (map (fun r => r ++ map (fun c => (c, None)) missing) (f_rows f)).

(** [_align_columns(a, b)]: both frames get the union of the columns.
    pandas also sorts the column list; no lookup depends on column order. *)
Definition align_columns (a b : Frame) : Frame * Frame :=
  (ensure_columns a (f_cols b), ensure_columns b (f_cols a)).

(** [df[c] = v] for a scalar [v]. *)
Definition set_cell (c : string) (v : Cell) (r : Row) : Row :=
  if existsb (fun kv => String.eqb (fst kv) c) r
  then map (fun kv => if String.eqb (fst kv) c then (c, v) else kv) r
  else r ++ [(c, v)].

Definition set_column (c : string) (v : Cell) (f : Frame) : Frame :=
  mkFrame (if mem c (f_cols f) then f_cols f else f_cols f ++ [c])
          (map (set_cell c v) (f_rows f)).

(** [df.drop_duplicates(subset=["id"], keep="last")]: a row is kept when
    no later row has the same id (NaN ids are equal to each other). *)
Fixpoint drop_duplicates_last (rows : list Row) : list Row :=
  match rows with
  | [] => []
  | r :: rest =>
    if existsb (fun r' => cell_eqb (lookup "id" r') (lookup "id" r)) rest
    then drop_duplicates_last rest
    else r :: drop_duplicates_last rest
  end.

Definition owned_by (uid : string) (r : Row) : bool :=
  String.eqb (str_cell (lookup "user_id" r)) uid.

(** The common body of both helpers for a non-null [uid]:
    [others] keeps the rows whose [user_id.astype(str) != str(uid)],
    [cur] the others; [cur] followed by [incoming] (with [user_id] forced
    to [uid]) is deduplicated on [id], keeping the last.  [None] is the
    error raised when the aligned frames have no [user_id] column
    ([existing.get('user_id', '')] returns a [str]) or no [id] column
    ([drop_duplicates] raises [KeyError]). *)
Definition merge_current_user (existing incoming : Frame) (uid : string) : option Frame :=
  let '(ex, inc) := align_columns existing incoming in
  let inc := set_column "user_id" (Some uid) inc in
  if negb (mem "user_id" (f_cols ex)) || negb (mem "id" (f_cols ex)) then None
  else
    let others := filter (fun r => negb (owned_by uid r)) (f_rows ex) in
    let cur := filter (owned_by uid) (f_rows ex) in
    Some (mkFrame (f_cols ex) (others ++ drop_duplicates_last (cur ++ f_rows inc))).

(** [_merge_replace_current_user(existing, incoming, uid)]. *)
Definition _merge_replace_current_user (existing incoming : Frame) (uid : option string)
    : option Frame :=
  match uid with
  | None => Some (snd (align_columns existing incoming))
  | Some u => merge_current_user existing incoming u
  end.

(** [_append_current_user(existing, incoming, uid)]. *)
Definition _append_current_user (existing incoming : Frame) (uid : option string)
    : option Frame :=
  match uid with
  | None =>
    let '(ex, inc) := align_columns existing incoming in
    let rows := f_rows ex ++ f_rows inc in
    Some (mkFrame (f_cols ex)
            (if mem "id" (f_cols ex) then drop_duplicates_last rows else rows))
  | Some u => merge_current_user existing incoming u
  end.

(** Two rows hold the same cells. *)
Definition same_cells (r1 r2 : Row) : Prop := forall c, lookup c r1 = lookup c r2.

End Merge.

(** ** Settings loading and the Firestore batch writer ([core/storage.py]) *)

Module Storage.

(** A JSON value of the settings document. *)
Inductive JVal :=
| JNum (q : Q)
| JStr (s : string)
| JBool (b : bool)
| JNull.

(** A settings dict, as an association list (first binding wins). *)
Definition Dict := list (string * JVal).

(** [d.get(k)]. *)
Definition dict_get (k : string) (d : Dict) : option JVal :=
  match find (fun kv => String.eqb (fst kv) k) d with
  | Some kv => Some (snd kv)
  | None => None
  end.

(** [d.setdefault(k, v)]: binds [k] at the end when it is absent. *)
Definition setdefault (k : string) (v : JVal) (d : Dict) : Dict :=
  match dict_get k d with
  | Some _ => d
  | None => d ++ [(k, v)]
  end.

(** [{**a, **b}]: the keys of [a] in order, their values overridden by
    [b], then the keys only [b] has. *)
Definition dict_merge (a b : Dict) : Dict :=
  map (fun kv => match dict_get (fst kv) b with
                 | Some v => (fst kv, v)
                 | None => kv
                 end) a ++
  filter (fun kv => match dict_get (fst kv) a with Some _ => false | None => true end) b.

(** [DEFAULT_SETTINGS] of [core/config.py]. *)
Definition DEFAULT_SETTINGS : Dict :=
  [("semester", JStr "Sem 2.2");
   ("default_exam_date", JStr "2025-09-05");
   ("logs_weight", JNum (70 # 100));
   ("tests_weight", JNum (30 # 100));
   ("momentum_days", JNum 7);
   ("focus_n", JNum 3);
   ("show_upcoming_exams", JBool true);
   ("show_recent_activity", JBool true)]%string.

(** The local branch of [load_settings()]: [file] is the parsed
    [settings.json], [None] when reading or parsing raised (the defaults
    are copied then); every default key is then backfilled with
    [s.setdefault(k, v)]. *)
Definition load_settings_local (file : option Dict) : Dict :=
  fold_left (fun s kv => setdefault (fst kv) (snd kv) s) DEFAULT_SETTINGS
            (match file with Some d => d | None => DEFAULT_SETTINGS end).

(** [_firestore_load_settings()]: [snap] is the stored document, [None]
    when it does not exist (the defaults are written and returned). *)
Definition _firestore_load_settings (snap : option Dict) : Dict :=
  match snap with
  | None => DEFAULT_SETTINGS
  | Some data => dict_merge DEFAULT_SETTINGS data
  end.

(** [load_settings()]: with Firebase on, the Firestore document when the
    fetch succeeds ([firestore = Some snap]); otherwise, or when the fetch
    raised ([firestore = None]), the local file. *)
Definition load_settings (use_firebase : bool) (firestore : option (option Dict))
    (file : option Dict) : Dict :=
  match use_firebase, firestore with
  | true, Some snap => _firestore_load_settings snap
  | _, _ => load_settings_local file
  end.

(** [range(start, stop, step)] for a positive [step]. *)
Definition py_range_step (start stop step : nat) : list nat :=
  map (fun k => start + k * step)%nat (seq 0 ((stop - start + step - 1) / step)).

Definition CHUNK : nat := 400.

(** The batches [_firestore_write_collection] commits:
    [out.iloc[i:i+CHUNK]] for [i] in [range(0, len(out), CHUNK)]. *)
Definition write_batches {A} (rows : list A) : list (list A) :=
  map (fun i => firstn CHUNK (skipn i rows)) (py_range_step 0 (List.length rows) CHUNK).

(** [str.strip()]: the leading and the trailing characters of
    [Normalize.is_py_space_char] are removed. *)
Fixpoint drop_space (cs : list (list ascii)) : list (list ascii) :=
  match cs with
  | [] => []
  | ch :: cs' => if Normalize.is_py_space_char ch then drop_space cs' else cs
  end.

Definition py_strip (s : string) : string :=
  string_of_list_ascii
    (List.concat (rev (drop_space (rev (drop_space (Normalize.utf8_chars s)))))).

Import Merge.







End Storage.

(** ** Concrete inputs used by the examples and witnesses *)

Module Fixtures.

(** The spec's scenarios: settings with weights 0.7 / 0.3, subject [s1]
    (credits 2, confidence 8) and subject [s2] (credits 2, confidence 2)
    with one log scored 80 and one test scored 60. *)
Import Metrics.
Definition cfg : Settings := mkSettings (Some (7 # 10)) (Some (3 # 10)) None.
Definition s1 : Subject := mkSubject "s1" "S1" 2 8 None.
Definition s2 : Subject := mkSubject "s2" "S2" 2 2 None.
Definition log_s2 : LogEntry := mkLog "s2" (Some 1) (Some 80).
Definition test_s2 : TestEntry := mkTest "s2" (Some 60).

Import Merge.

(** Two users' rows and an import for user ["u1"]. *)
Definition ex_existing : Frame :=
  mkFrame ["id"; "user_id"]%string
    [[("id", Some "a"); ("user_id", Some "u1")];
     [("id", Some "b"); ("user_id", Some "u2")]]%string.
Definition ex_incoming : Frame :=
  mkFrame ["id"; "name"]%string [[("id", Some "a"); ("name", Some "A")]]%string.

End Fixtures.

(** ** The left merge against a groupby table *)

Module MetricsFacts.
Import Metrics.

Lemma filter_eqb_nodup (l : list string) (k : string) :
  NoDup l ->
  filter (fun x => String.eqb x k) l = if in_dec string_dec k l then [k] else [].
Proof.
  induction 1 as [|x l Hx Hnd IH]; simpl; [reflexivity|].
  destruct (String.eqb_spec x k) as [->|Hne].
  - rewrite IH. destruct (in_dec string_dec k l); [contradiction|].
    destruct (string_dec k k); [reflexivity|congruence].
  - rewrite IH. destruct (string_dec x k); [congruence|].
    destruct (in_dec string_dec k l); reflexivity.
Qed.

Lemma filter_map_comm {A B} (f : A -> B) (p : B -> bool) (l : list A) :
  filter p (map f l) = map f (filter (fun x => p (f x)) l).
Proof.
  induction l as [|a l IH]; simpl; [reflexivity|].
  destruct (p (f a)); simpl; rewrite IH; reflexivity.
Qed.

(** Looking a key up in a groupby table finds exactly one group when some
    row carries the key, and none otherwise. *)
Lemma filter_groupby {R B} (key : R -> string) (agg : list R -> B)
    (rows : list R) (k : string) :
  filter (fun kv => String.eqb (fst kv) k) (groupby key agg rows) =
  if in_dec string_dec k (map key rows)
  then [(k, agg (filter (fun r => String.eqb (key r) k) rows))] else [].
Proof.
  unfold groupby. rewrite filter_map_comm. simpl.
  rewrite (filter_eqb_nodup _ _ (NoDup_nodup string_dec _)).
  destruct (in_dec string_dec k (nodup string_dec (map key rows))) as [Hin|Hin];
  destruct (in_dec string_dec k (map key rows)) as [Hin'|Hin'];
  try reflexivity.
  - apply nodup_In in Hin. contradiction.
  - exfalso. apply Hin. apply nodup_In. exact Hin'.
Qed.

(** A left merge against a groupby table keeps every left row exactly
    once. *)
Lemma merge_left_groupby {L R B} (lkey : L -> string) (set : L -> option B -> L)
    (rkey : R -> string) (agg : list R -> B) (df : list L) (rows : list R) :
  merge_left lkey set df (groupby rkey agg rows) =
  map (fun l => set l (if in_dec string_dec (lkey l) (map rkey rows)
                       then Some (agg (filter (fun r => String.eqb (rkey r) (lkey l)) rows))
                       else None)) df.
Proof.
  induction df as [|l df IH]; [reflexivity|].
  unfold merge_left in *.
  match goal with |- flat_map ?f (l :: df) = _ =>
    change (flat_map f (l :: df)) with (f l ++ flat_map f df) end.
  rewrite IH. cbv beta. rewrite filter_groupby.
  simpl. destruct (in_dec string_dec (lkey l) (map rkey rows)); reflexivity.
Qed.

Lemma in_map_filter_nil {R} (key : R -> string) (rows : list R) (k : string) :
  ~ In k (map key rows) -> filter (fun r => String.eqb (key r) k) rows = [].
Proof.
  intro H. induction rows as [|r rows IH]; simpl in *; [reflexivity|].
  destruct (String.eqb_spec (key r) k); [tauto|]. apply IH. tauto.
Qed.

Lemma compute_metrics_rows settings today subjects logs tests :
  compute_metrics settings today subjects logs tests =
  map (metric_of settings today logs tests) subjects.
Proof.
  unfold compute_metrics.
  rewrite !merge_left_groupby, !map_map.
  apply map_ext. intro s. unfold metric_of, j_key, logs_of, tests_of; simpl.
  destruct (in_dec string_dec (s_id s) (map l_subject_id logs)) as [Hl|Hl];
  destruct (in_dec string_dec (s_id s) (map t_subject_id tests)) as [Ht|Ht];
  simpl;
  repeat match goal with
  | H : ~ In _ _ |- _ => rewrite (in_map_filter_nil _ _ _ H); clear H
  end; reflexivity.
Qed.

End MetricsFacts.

(** ** Concrete runs (the scenarios of the spec) *)

Module MetricsExamples.
Import Metrics MetricsFacts Fixtures.


Example s1_alone :
  map (fun m => (m_priority m, m_avg_score m, m_priority_gap m))
      (compute_metrics cfg 739400 [s1] [] []) = [(4, 0, 4 * (1 - 0 / 100))].
Proof. vm_compute. reflexivity. Qed.

Example s2_blend :
  match compute_metrics cfg 739400 [s2] [log_s2] [test_s2] with
  | [m] => m_priority m == 16 /\ m_avg_score m == 74 /\ m_priority_gap m == 416 # 100
  | _ => False
  end.
Proof. vm_compute. repeat split; reflexivity. Qed.

End MetricsExamples.

(** ** Claims on the metrics engine *)

Module MetricsClaims.
Import Metrics MetricsFacts.

Lemma in_compute_metrics settings today subjects logs tests m :
  In m (compute_metrics settings today subjects logs tests) ->
  exists s, In s subjects /\ m = metric_of settings today logs tests s.
Proof.
  rewrite compute_metrics_rows. intro H. apply in_map_iff in H.
  destruct H as [s [<- Hs]]. exists s. split; [exact Hs | reflexivity].
Qed.

(** C1: every row's [avg_score] follows the precedence of [weighted_avg]:
    both means present gives [logs_avg * logs_weight + tests_avg * tests_weight],
    one present gives that mean, none gives 0; [logs_avg] and [tests_avg]
    are the score means of the subject's own log and test rows, and the
    weights are those of the settings ([tests_weight] defaulting to
    [max(0, 1 - logs_weight)]). *)
Theorem avg_score_precedence settings today subjects logs tests m :
  In m (compute_metrics settings today subjects logs tests) ->
  let w_logs := get_or (logs_weight settings) (7 # 10) in
  let w_tests := get_or (tests_weight settings) (Qmax 0 (1 - w_logs)) in
  m_logs_avg m = mean_skipna (map l_score (logs_of logs (s_id (m_subj m)))) /\
  m_tests_avg m = mean_skipna (map t_score (tests_of tests (s_id (m_subj m)))) /\
  m_avg_score m =
    match m_logs_avg m, m_tests_avg m with
    | Some la, Some ta => la * w_logs + ta * w_tests
    | Some la, None => la
    | None, Some ta => ta
    | None, None => 0
    end.
Proof.
  intro H. apply in_compute_metrics in H as [s [_ ->]].
  cbv zeta. unfold metric_of. simpl. repeat split.
Qed.

Lemma avg_score_precedence_witness :
  let m := mkMetric Fixtures.s2 16 1 (Some 60) (Some 80) (80 * (7 # 10) + 60 * (3 # 10))
             0 (16 * (1 - (80 * (7 # 10) + 60 * (3 # 10)) / 100)) in
  In m (compute_metrics Fixtures.cfg 739499 [Fixtures.s2]
          [Fixtures.log_s2] [Fixtures.test_s2]) /\
  m_avg_score m = 80 * (7 # 10) + 60 * (3 # 10).
Proof.
  cbv zeta.
  assert (Hin : In (mkMetric Fixtures.s2 16 1 (Some 60) (Some 80)
                   (80 * (7 # 10) + 60 * (3 # 10)) 0
                   (16 * (1 - (80 * (7 # 10) + 60 * (3 # 10)) / 100)))
             (compute_metrics Fixtures.cfg 739499 [Fixtures.s2]
                [Fixtures.log_s2] [Fixtures.test_s2]))
    by (vm_compute; left; reflexivity).
  split; [exact Hin|].
  destruct (avg_score_precedence _ _ _ _ _ _ Hin) as [_ [_ ->]].
  reflexivity.
Defined.



(** C2: [weighted_readiness] is [sum(priority_i * avg_score_i / 100) /
    sum(priority_i)]; it is exactly 0 on the empty table and when the
    priorities sum to zero, and it divides only by a nonzero sum. *)
Theorem weighted_readiness_formula (ms : list Metric) :
  weighted_readiness [] = 0 /\
  (readiness_den ms == 0 -> weighted_readiness ms = 0) /\
  (~ readiness_den ms == 0 -> weighted_readiness ms = readiness_num ms / readiness_den ms).
Proof.
  split; [reflexivity|].
  unfold weighted_readiness, readiness_num, readiness_den.
  destruct ms as [|m ms]; [split; intro; [reflexivity|exfalso; apply H; reflexivity]|].
  split; intro H.
  - apply Qeq_bool_iff in H. rewrite H. reflexivity.
  - destruct (Qeq_bool _ 0) eqn:E; [apply Qeq_bool_iff in E; contradiction|reflexivity].
Qed.

Lemma weighted_readiness_formula_witness :
  weighted_readiness [mkMetric Fixtures.s1 0 0 None None 0 0 0] = 0 /\
  weighted_readiness [mkMetric Fixtures.s2 16 1 None (Some 74) 74 0 0] =
    readiness_num [mkMetric Fixtures.s2 16 1 None (Some 74) 74 0 0] /
    readiness_den [mkMetric Fixtures.s2 16 1 None (Some 74) 74 0 0].
Proof.
  split.
  - apply (proj1 (proj2 (weighted_readiness_formula _))). vm_compute. reflexivity.
  - apply (proj2 (proj2 (weighted_readiness_formula _))). vm_compute. intro H. discriminate H.
Defined.

(** C3 (counterexample): [compute_metrics] reads the current date, so two
    calls with the same subjects, logs, tests and settings made on
    different days return different tables. *)
Lemma compute_metrics_reads_today :
  compute_metrics Fixtures.cfg 739400 [Fixtures.s1] [] [] <>
  compute_metrics Fixtures.cfg 739450 [Fixtures.s1] [] [].
Proof.
  intro H. apply (f_equal (map m_days_left)) in H. vm_compute in H. discriminate H.
Qed.

(** C3 (amended): the output of [compute_metrics] is fixed by its
    arguments, the loaded settings and the current date, and the date only
    enters [days_left]: calls made on different days agree on every other
    column. *)
Theorem compute_metrics_today_only_days_left settings today1 today2 subjects logs tests :
  map forget_days_left (compute_metrics settings today1 subjects logs tests) =
  map forget_days_left (compute_metrics settings today2 subjects logs tests).
Proof.
  rewrite !compute_metrics_rows, !map_map. apply map_ext. intro s. reflexivity.
Qed.

Lemma not_in_orphans {A} (key : A -> string) (extra : list A) (subjects : list Subject) s :
  (forall x, In x extra -> ~ In (key x) (map s_id subjects)) ->
  In s subjects ->
  filter (fun x => String.eqb (key x) (s_id s)) extra = [].
Proof.
  intros Horph Hs. apply in_map_filter_nil. intro Hin.
  apply in_map_iff in Hin as [x [Hx Hinx]].
  apply (Horph x Hinx). rewrite Hx. apply in_map. exact Hs.
Qed.

(** C4: the left join keeps exactly one output row per input subject, in
    order; a subject with no log and no test row gets [hours = 0],
    [avg_score = 0] and so [priority_gap = priority]; log and test rows
    whose [subject_id] is no subject's id change no output row. *)
Theorem compute_metrics_left_join settings today subjects logs tests extra_logs extra_tests :
  List.length (compute_metrics settings today subjects logs tests) = List.length subjects /\
  map m_subj (compute_metrics settings today subjects logs tests) = subjects /\
  (forall m, In m (compute_metrics settings today subjects logs tests) ->
     logs_of logs (s_id (m_subj m)) = [] -> tests_of tests (s_id (m_subj m)) = [] ->
     m_hours m = 0 /\ m_avg_score m = 0 /\ m_priority_gap m == m_priority m) /\
  ((forall l, In l extra_logs -> ~ In (l_subject_id l) (map s_id subjects)) ->
   (forall t, In t extra_tests -> ~ In (t_subject_id t) (map s_id subjects)) ->
   compute_metrics settings today subjects (logs ++ extra_logs) (tests ++ extra_tests) =
   compute_metrics settings today subjects logs tests).
Proof.
  rewrite !compute_metrics_rows. split; [|split; [|split]].
  - apply length_map.
  - rewrite map_map. apply map_id.
  - intros m Hm. apply in_map_iff in Hm as [s [Hms _]]. subst m. simpl.
    intros Hl Ht. rewrite Hl, Ht. simpl. split; [reflexivity|split; [reflexivity|]]. field.
  - intros Hl Ht. apply map_ext_in. intros s Hs.
    unfold metric_of, logs_of, tests_of. rewrite !filter_app.
    rewrite (not_in_orphans _ _ _ _ Hl Hs), (not_in_orphans _ _ _ _ Ht Hs), !app_nil_r.
    reflexivity.
Qed.

Lemma compute_metrics_left_join_witness :
  List.length (compute_metrics Fixtures.cfg 739400 [Fixtures.s1; Fixtures.s2] [] []) = 2%nat /\
  compute_metrics Fixtures.cfg 739400 [Fixtures.s1]
    ([] ++ [Fixtures.log_s2]) ([] ++ [Fixtures.test_s2]) =
  compute_metrics Fixtures.cfg 739400 [Fixtures.s1] [] [] /\
  (forall m, In m (compute_metrics Fixtures.cfg 739400 [Fixtures.s1] [] []) ->
     m_priority_gap m == m_priority m).
Proof.
  destruct (compute_metrics_left_join Fixtures.cfg 739400
              [Fixtures.s1; Fixtures.s2] [] [] [] []) as [Hlen _].
  destruct (compute_metrics_left_join Fixtures.cfg 739400
              [Fixtures.s1] [] [] [Fixtures.log_s2] [Fixtures.test_s2])
    as [_ [_ [Hnone Horph]]].
  split; [exact Hlen|]. split.
  - apply Horph.
    + intros l [<-|[]]. simpl. intros [H|[]]. discriminate H.
    + intros t [<-|[]]. simpl. intros [H|[]]. discriminate H.
  - intros m Hm. apply (Hnone m Hm); vm_compute in Hm; destruct Hm as [<-|[]];
      reflexivity.
Defined.

(** C5: [days_left] is [max(0, days_between(today, exam))], i.e. the
    number of days from today until the effective exam date (the subject's
    own parsed [exam_date], else the settings' [default_exam_date], else
    2025-09-05), floored at 0; it is never negative. *)
Theorem days_left_clamped settings today subjects logs tests m :
  In m (compute_metrics settings today subjects logs tests) ->
  m_days_left m =
    Z.max 0 (get_or (s_exam_date (m_subj m))
                    (get_or (default_exam_date settings) DEFAULT_EXAM_DATE) - today) /\
  (0 <= m_days_left m)%Z.
Proof.
  intro H. apply in_compute_metrics in H as [s [_ ->]].
  simpl. unfold days_between. split; [reflexivity | lia].
Qed.

Lemma days_left_clamped_witness :
  m_days_left (mkMetric Fixtures.s1 4 0 None None 0 0 4) = 0%Z /\
  (0 <= m_days_left (mkMetric Fixtures.s1 4 0 None None 0 0 4))%Z.
Proof.
  assert (Hin : In (mkMetric Fixtures.s1 4 0 None None 0 0 (4 * (1 - 0 / 100)))
                   (compute_metrics Fixtures.cfg 739600 [Fixtures.s1] [] []))
    by (vm_compute; left; reflexivity).
  destruct (days_left_clamped _ _ _ _ _ _ Hin) as [H1 H2].
  simpl in H1, H2. simpl. split; assumption.
Defined.

(** C8 (counterexample): credits are not clamped (see C7), so a table can
    mix positive and negative priorities; subject [a] (credits 1,
    confidence 8, priority 2, one log scored 100) with subject [b]
    (credits -1, confidence 9, priority -1, no rows) gives a readiness of
    [(2 * 1 + -1 * 0) / (2 + -1) = 2]. *)
Lemma weighted_readiness_above_one :
  ~ (weighted_readiness
       (compute_metrics Fixtures.cfg 739400
          [mkSubject "a" "A" 1 8 None; mkSubject "b" "B" (-1) 9 None]
          [mkLog "a" (Some 1) (Some 100)] []) <= 1).
Proof.
  intro H. vm_compute in H. apply H. reflexivity.
Qed.

Lemma readiness_sums_bounded (ms : list Metric) :
  (forall m, In m ms -> 0 <= m_priority m /\ 0 <= m_avg_score m <= 100) ->
  0 <= readiness_num ms /\ readiness_num ms <= readiness_den ms.
Proof.
  unfold readiness_num, readiness_den.
  induction ms as [|m ms IH]; intro Hall; simpl; [split; apply Qle_refl|].
  destruct (Hall m (or_introl eq_refl)) as [Hp [Ha0 Ha1]].
  destruct (IH (fun x Hx => Hall x (or_intror Hx))) as [IH0 IH1].
  assert (Hf0 : 0 <= m_avg_score m / 100)
    by (apply Qle_shift_div_l; [reflexivity|]; rewrite Qmult_0_l; exact Ha0).
  assert (Hf1 : m_avg_score m / 100 <= 1)
    by (apply Qle_shift_div_r; [reflexivity|]; rewrite Qmult_1_l; exact Ha1).
  assert (Ht0 : 0 <= m_priority m * (m_avg_score m / 100))
    by (apply Qmult_le_0_compat; assumption).
  assert (Ht1 : m_priority m * (m_avg_score m / 100) <= m_priority m).
  { rewrite <- (Qmult_1_r (m_priority m)) at 2.
    rewrite (Qmult_comm (m_priority m) (_ / 100)), (Qmult_comm (m_priority m) 1).
    apply Qmult_le_compat_r; assumption. }
  split; lra.
Qed.

(** C8 (amended): when every row has a non-negative priority and an
    [avg_score] in [0, 100], [weighted_readiness] lies in [0, 1]. *)
Theorem weighted_readiness_in_unit (ms : list Metric) :
  (forall m, In m ms -> 0 <= m_priority m /\ 0 <= m_avg_score m <= 100) ->
  0 <= weighted_readiness ms <= 1.
Proof.
  intro Hall. destruct (readiness_sums_bounded ms Hall) as [H0 H1].
  destruct ms as [|m ms]; [split; discriminate|].
  change (0 <= (if Qeq_bool (readiness_den (m :: ms)) 0 then 0
                else readiness_num (m :: ms) / readiness_den (m :: ms)) <= 1).
  destruct (Qeq_bool _ 0) eqn:E; [split; discriminate|].
  assert (Hpos : 0 < readiness_den (m :: ms)).
  { apply Qle_lt_or_eq in H1 as [H1|H1]; [lra|].
    destruct (Qle_lt_or_eq _ _ H0) as [H2|H2]; [lra|].
    exfalso. assert (Hd : readiness_den (m :: ms) == 0) by lra.
    apply Qeq_bool_iff in Hd. congruence. }
  split.
  - apply Qle_shift_div_l; [exact Hpos|]. rewrite Qmult_0_l. exact H0.
  - apply Qle_shift_div_r; [exact Hpos|]. rewrite Qmult_1_l. exact H1.
Qed.

Lemma weighted_readiness_in_unit_witness :
  0 <= weighted_readiness [mkMetric Fixtures.s2 16 1 None (Some 74) 74 0 0;
                           mkMetric Fixtures.s1 4 0 None None 0 0 4] <= 1.
Proof.
  apply weighted_readiness_in_unit.
  intros m [<-|[<-|[]]]; simpl; repeat split; discriminate.
Defined.

End MetricsClaims.

(** ** Claims on the normalisers *)

Module NormalizeClaims.
Import Normalize.

Example uuid_str_format :
  uuid_str 0x123456789abcdef0fedcba9876543210 = "12345678-9abc-def0-fedc-ba9876543210"%string.
Proof. vm_compute. reflexivity. Qed.

Example ids_filled :
  normalize_ids (fun k => Z.of_nat k) [None; Some " "%string; Some "x"%string] =
  [uuid_str 0; uuid_str 1; "x"%string].
Proof. vm_compute. reflexivity. Qed.

Example confidence_rounding :
  map norm_confidence [Some (25 # 10); Some (35 # 10); Some 12; Some (-3); None] = [2; 4; 10; 0; 5]%Z.
Proof. vm_compute. reflexivity. Qed.

Lemma hex_string_head (k : nat) (n : Z) :
  exists m rest, hex_string n (S k) = String (hex_digit (m mod 16)) rest.
Proof.
  revert n. induction k as [|k IH]; intro n.
  - exists n, EmptyString. reflexivity.
  - destruct (IH (n / 16)%Z) as [m [rest E]].
    exists m, (rest ++ String (hex_digit (n mod 16)) EmptyString)%string.
    change (hex_string n (S (S k))) with
      (hex_string (n / 16) (S k) ++ String (hex_digit (n mod 16)) EmptyString)%string.
    rewrite E. reflexivity.
Qed.

Lemma hex_digit_not_space (m : Z) :
  utf8_width (hex_digit (m mod 16)) = 1%nat /\ is_py_space_char [hex_digit (m mod 16)] = false.
Proof.
  pose proof (Z.mod_pos_bound m 16 ltac:(lia)) as Hb.
  destruct (m mod 16)%Z as [|p|p] eqn:E; [split; reflexivity| |lia].
  assert (Hp : (Z.pos p = 1 \/ Z.pos p = 2 \/ Z.pos p = 3 \/ Z.pos p = 4 \/ Z.pos p = 5 \/
                Z.pos p = 6 \/ Z.pos p = 7 \/ Z.pos p = 8 \/ Z.pos p = 9 \/ Z.pos p = 10 \/
                Z.pos p = 11 \/ Z.pos p = 12 \/ Z.pos p = 13 \/ Z.pos p = 14 \/ Z.pos p = 15)%Z)
    by lia.
  repeat destruct Hp as [Hp|Hp]; rewrite Hp; split; reflexivity.
Qed.

Lemma strip_is_empty_head (c : ascii) (rest : string) :
  utf8_width c = 1%nat -> is_py_space_char [c] = false -> strip_is_empty (String c rest) = false.
Proof.
  intros Hw Hs. unfold strip_is_empty, utf8_chars.
  change (String.length (String c rest)) with (S (String.length rest)).
  change (list_ascii_of_string (String c rest)) with (c :: list_ascii_of_string rest).
  cbn [utf8_split]. rewrite Hw. cbn [firstn forallb]. rewrite Hs. reflexivity.
Qed.

Lemma uuid_str_nonblank (u : Z) : strip_is_empty (uuid_str u) = false.
Proof.
  unfold uuid_str. destruct (hex_string_head 7 (Z.shiftr u 96)) as [m [rest E]].
  rewrite E. destruct (hex_digit_not_space m) as [Hw Hs].
  apply strip_is_empty_head; assumption.
Qed.

(** U+00A0, U+0085 and U+3000 are blank, as for [str.strip()]; a
    string holding a letter is not. *)
Example unicode_blank_ids :
  map strip_is_empty
    [String (ascii_of_nat 194) (String (ascii_of_nat 160) EmptyString);
     String " " (String (ascii_of_nat 194) (String (ascii_of_nat 133) EmptyString));
     String (ascii_of_nat 227) (String (ascii_of_nat 128) (String (ascii_of_nat 128) EmptyString));
     String (ascii_of_nat 194) (String (ascii_of_nat 160) "a")] = [true; true; true; false].
Proof. vm_compute. reflexivity. Qed.

Lemma assign_ids_spec rand k (ids : list string) :
  Forall2 (fun i o => if strip_is_empty i then exists k', o = uuid_str (rand k') else o = i)
          ids (assign_ids rand k ids) /\
  Forall (fun o => strip_is_empty o = false) (assign_ids rand k ids).
Proof.
  revert k. induction ids as [|i ids IH]; intro k; simpl; [split; constructor|].
  destruct (strip_is_empty i) eqn:E.
  - destruct (IH (S k)) as [H1 H2]. split; constructor; try assumption.
    + cbv beta. rewrite E. exists k. reflexivity.
    + apply uuid_str_nonblank.
  - destruct (IH k) as [H1 H2]. split; constructor; try assumption.
    cbv beta. rewrite E. reflexivity.
Qed.

Lemma normalize_ids_spec rand (ids : list (option string)) :
  Forall2 (id_kept_or_fresh rand) ids (normalize_ids rand ids) /\
  Forall (fun o => strip_is_empty o = false) (normalize_ids rand ids).
Proof.
  unfold normalize_ids. destruct (assign_ids_spec rand 0 (map fillna_str ids)) as [H1 H2].
  split; [|exact H2].
  remember (assign_ids rand 0 (map fillna_str ids)) as out eqn:Eo. clear Eo H2.
  revert out H1. induction ids as [|i ids IH]; intros out H1; inversion H1; subst;
    constructor; [exact H2 | apply IH; assumption].
Qed.

Lemma length_normalize_ids rand ids : List.length (normalize_ids rand ids) = List.length ids.
Proof.
  destruct (normalize_ids_spec rand ids) as [H _].
  symmetry. apply (Forall2_length H).
Qed.

Lemma map_fst_combine {A B} (a : list A) (b : list B) :
  List.length a = List.length b -> map fst (combine a b) = a.
Proof.
  revert b. induction a as [|x a IH]; intros [|y b] H; simpl in *; try discriminate;
    [reflexivity|]. f_equal. apply IH. lia.
Qed.

Lemma map_snd_combine {A B} (a : list A) (b : list B) :
  List.length a = List.length b -> map snd (combine a b) = b.
Proof.
  revert b. induction a as [|x a IH]; intros [|y b] H; simpl in *; try discriminate;
    [reflexivity|]. f_equal. apply IH. lia.
Qed.

Lemma subject_ids rand de uid df :
  map ns_id (normalize_subjects_df rand de uid df) = normalize_ids rand (map rs_id df).
Proof.
  unfold normalize_subjects_df. rewrite map_map.
  rewrite <- (map_fst_combine (normalize_ids rand (map rs_id df)) df) at 2
    by (rewrite length_normalize_ids, length_map; reflexivity).
  apply map_ext. intros [i r]. reflexivity.
Qed.

Lemma log_ids rand uid df :
  map nl_id (normalize_logs_df rand uid df) = normalize_ids rand (map rl_id df).
Proof.
  unfold normalize_logs_df. rewrite map_map.
  rewrite <- (map_fst_combine (normalize_ids rand (map rl_id df)) df) at 2
    by (rewrite length_normalize_ids, length_map; reflexivity).
  apply map_ext. intros [i r]. reflexivity.
Qed.

Lemma test_ids rand uid df :
  map nt_id (normalize_tests_df rand uid df) = normalize_ids rand (map rt_id df).
Proof.
  unfold normalize_tests_df. rewrite map_map.
  rewrite <- (map_fst_combine (normalize_ids rand (map rt_id df)) df) at 2
    by (rewrite length_normalize_ids, length_map; reflexivity).
  apply map_ext. intros [i r]. reflexivity.
Qed.

(** C10: after each of the three normalisers, row by row, an id that was
    missing, empty or whitespace only is replaced by a [uuid4] string and a
    non-blank id is kept as it is; every output id is non-blank. *)
Theorem normalized_ids_nonblank rand default_exam uid
    (subjects : list RawSubject) (logs : list RawLog) (tests : list RawTest) :
  Forall2 (id_kept_or_fresh rand) (map rs_id subjects)
          (map ns_id (normalize_subjects_df rand default_exam uid subjects)) /\
  Forall (fun i => strip_is_empty i = false)
         (map ns_id (normalize_subjects_df rand default_exam uid subjects)) /\
  Forall2 (id_kept_or_fresh rand) (map rl_id logs)
          (map nl_id (normalize_logs_df rand uid logs)) /\
  Forall (fun i => strip_is_empty i = false) (map nl_id (normalize_logs_df rand uid logs)) /\
  Forall2 (id_kept_or_fresh rand) (map rt_id tests)
          (map nt_id (normalize_tests_df rand uid tests)) /\
  Forall (fun i => strip_is_empty i = false) (map nt_id (normalize_tests_df rand uid tests)).
Proof.
  rewrite subject_ids, log_ids, test_ids.
  destruct (normalize_ids_spec rand (map rs_id subjects)) as [A1 A2].
  destruct (normalize_ids_spec rand (map rl_id logs)) as [B1 B2].
  destruct (normalize_ids_spec rand (map rt_id tests)) as [C1 C2].
  repeat split; assumption.
Qed.

Lemma test_scores rand uid df :
  map nt_score (normalize_tests_df rand uid df) = map (fun r => norm_test_score (rt_score r)) df.
Proof.
  unfold normalize_tests_df. rewrite map_map.
  rewrite <- (map_snd_combine (normalize_ids rand (map rt_id df)) df) at 3
    by (rewrite length_normalize_ids, length_map; reflexivity).
  rewrite map_map. apply map_ext. intros [i r]. reflexivity.
Qed.

Lemma log_scores rand uid df :
  map nl_score (normalize_logs_df rand uid df) = map (fun r => norm_log_score (rl_score r)) df.
Proof.
  unfold normalize_logs_df. rewrite map_map.
  rewrite <- (map_snd_combine (normalize_ids rand (map rl_id df)) df) at 3
    by (rewrite length_normalize_ids, length_map; reflexivity).
  rewrite map_map. apply map_ext. intros [i r]. reflexivity.
Qed.

Lemma Qclip_bounds (x : Q) :
  0 <= Qclip 0 100 x <= 100 /\
  (x < 0 -> Qclip 0 100 x == 0) /\ (100 < x -> Qclip 0 100 x == 100).
Proof.
  unfold Qclip.
  destruct (Q.max_spec 0 x) as [[H1 E1]|[H1 E1]]; rewrite E1;
  destruct (Q.min_spec 100 x) as [[H2 E2]|[H2 E2]];
  destruct (Q.min_spec 100 0) as [[H3 E3]|[H3 E3]];
  try rewrite E2; try rewrite E3; repeat split; intros; lra.
Qed.

Lemma Qlt_bool_iff (x y : Q) : Qlt_bool x y = true <-> x < y.
Proof.
  unfold Qlt_bool. rewrite negb_true_iff. split; intro H.
  - apply Qnot_le_lt. intro H'. apply Qle_bool_iff in H'. congruence.
  - destruct (Qle_bool y x) eqn:E; [|reflexivity].
    apply Qle_bool_iff in E. exfalso. apply (Qlt_not_le _ _ H E).
Qed.

Lemma mean_skipna_nan (l1 l2 : list (option Q)) :
  mean_skipna (l1 ++ None :: l2) = mean_skipna (l1 ++ l2).
Proof.
  unfold mean_skipna.
  assert (Hc : forall a, count_notna (a ++ None :: l2) = count_notna (a ++ l2))
    by (induction a as [|[]]; simpl; auto).
  assert (Hs : forall a, sum_skipna (a ++ None :: l2) = sum_skipna (a ++ l2))
    by (induction a as [|[]]; simpl; congruence).
  rewrite Hc, Hs. reflexivity.
Qed.

(** C6: out-of-range scores are handled asymmetrically.  Row by row,
    [normalize_tests_df] maps a score through [clip(0, 100)] (below 0 gives
    0, above 100 gives 100) while [normalize_logs_df] turns a score below 0
    or above 100 into NaN, which the per-subject logs mean then skips. *)
Theorem out_of_range_scores rand uid (tests : list RawTest) (logs : list RawLog) :
  map nt_score (normalize_tests_df rand uid tests) = map (fun r => norm_test_score (rt_score r)) tests /\
  map nl_score (normalize_logs_df rand uid logs) = map (fun r => norm_log_score (rl_score r)) logs /\
  (forall x, x < 0 \/ 100 < x ->
     (exists y, norm_test_score (Some x) = Some y /\ 0 <= y <= 100 /\
                (x < 0 -> y == 0) /\ (100 < x -> y == 100)) /\
     norm_log_score (Some x) = None /\
     (forall sid h l1 l2,
        mean_skipna (map Metrics.l_score (l1 ++ Metrics.mkLog sid h (norm_log_score (Some x)) :: l2)) =
        mean_skipna (map Metrics.l_score (l1 ++ l2)))).
Proof.
  split; [apply test_scores|]. split; [apply log_scores|].
  intros x Hx.
  assert (Hlog : norm_log_score (Some x) = None).
  { unfold norm_log_score.
    destruct Hx as [Hx|Hx]; apply Qlt_bool_iff in Hx; rewrite Hx;
      [reflexivity | rewrite orb_true_r; reflexivity]. }
  split; [|split; [exact Hlog|]].
  - exists (Qclip 0 100 x). split; [reflexivity|]. apply Qclip_bounds.
  - intros sid h l1 l2. rewrite Hlog, !map_app. apply mean_skipna_nan.
Qed.

Lemma out_of_range_scores_witness :
  (exists y, norm_test_score (Some 150) = Some y /\ y == 100) /\
  norm_log_score (Some 150) = None.
Proof.
  destruct (out_of_range_scores (fun _ => 0%Z) None [] [] ) as [_ [_ H]].
  destruct (H 150 (or_intror (eq_refl : (100 ?= 150) = Lt)))
    as [[y [Hy [_ [_ Hhi]]]] [Hl _]].
  split; [exists y; split; [exact Hy | apply Hhi; reflexivity] | exact Hl].
Defined.







Example credits_int64_cast :
  map norm_credits [Some 100000000000000000000; Some (-37 # 10); Some 0; None] =
  [INT64_MIN; (-3)%Z; 0%Z; 1%Z].
Proof. vm_compute. reflexivity. Qed.



End NormalizeClaims.

(** ** Claims on the merge helpers *)

Module MergeClaims.
Import Merge.

Lemma lookup_pad (r : Row) (ms : list string) (c : string) :
  lookup c (r ++ map (fun c' => (c', None)) ms) = lookup c r.
Proof.
  unfold lookup. induction r as [|[k v] r IH]; simpl.
  - induction ms as [|m ms IHm]; simpl; [reflexivity|].
    destruct (String.eqb m c); [reflexivity|exact IHm].
  - destruct (String.eqb k c); [reflexivity|exact IH].
Qed.

Lemma lookup_replace (c : string) (v : Cell) (r : Row) :
  existsb (fun kv => String.eqb (fst kv) c) r = true ->
  lookup c (map (fun kv => if String.eqb (fst kv) c then (c, v) else kv) r) = v.
Proof.
  unfold lookup. induction r as [|[k w] r IH]; simpl; [discriminate|].
  destruct (String.eqb k c) eqn:E; simpl.
  - rewrite String.eqb_refl. reflexivity.
  - rewrite E. exact IH.
Qed.

Lemma lookup_append (c : string) (v : Cell) (r : Row) :
  existsb (fun kv => String.eqb (fst kv) c) r = false ->
  lookup c (r ++ [(c, v)]) = v.
Proof.
  unfold lookup. induction r as [|[k w] r IH]; simpl.
  - rewrite String.eqb_refl. reflexivity.
  - destruct (String.eqb k c); [discriminate|exact IH].
Qed.

Lemma lookup_set_cell (c : string) (v : Cell) (r : Row) : lookup c (set_cell c v r) = v.
Proof.
  unfold set_cell. destruct (existsb _ r) eqn:E;
    [apply lookup_replace | apply lookup_append]; exact E.
Qed.

Lemma drop_duplicates_last_incl (rows : list Row) r :
  In r (drop_duplicates_last rows) -> In r rows.
Proof.
  induction rows as [|x rows IH]; simpl; [tauto|].
  destruct (existsb _ rows); simpl; intuition.
Qed.

Lemma same_cells_pad (rows : list Row) (ms : list string) :
  Forall2 same_cells (map (fun r => r ++ map (fun c => (c, None)) ms) rows) rows.
Proof.
  induction rows as [|r rows IH]; simpl; constructor; [|exact IH].
  intro c. apply lookup_pad.
Qed.

Lemma merge_current_user_frame existing incoming u f :
  merge_current_user existing incoming u = Some f ->
  exists pre post, f_rows f = pre ++ post /\
    Forall2 same_cells pre (filter (fun r => negb (owned_by u r)) (f_rows existing)) /\
    Forall (fun r => owned_by u r = true) post.
Proof.
  unfold merge_current_user, align_columns.
  destruct (_ || _); [discriminate|].
  intro H. injection H as <-. simpl.
  eexists _, _. split; [reflexivity|]. split.
  - rewrite MetricsFacts.filter_map_comm.
    rewrite (filter_ext (fun x => negb (owned_by u (x ++ _)))
                        (fun r => negb (owned_by u r))).
    + apply same_cells_pad.
    + intro r. unfold owned_by. rewrite lookup_pad. reflexivity.
  - apply Forall_forall. intros r Hr. apply drop_duplicates_last_incl in Hr.
    apply in_app_or in Hr as [Hr|Hr].
    + apply filter_In in Hr. exact (proj2 Hr).
    + simpl in Hr. apply in_map_iff in Hr as [r0 [<- _]].
      unfold owned_by. rewrite lookup_set_cell. apply String.eqb_refl.
Qed.

(** C9 (amended): for a non-null [uid], the result of
    [_merge_replace_current_user] and of [_append_current_user] starts with
    the existing rows whose [user_id], as the string the code compares
    (a missing [user_id] reads ["nan"]), differs from [uid], in their
    order and with the same cells (absent columns read NaN before and
    after); every row after them is owned by [uid]. *)
Theorem merge_helpers_keep_other_users existing incoming u f :
  (_merge_replace_current_user existing incoming (Some u) = Some f \/
   _append_current_user existing incoming (Some u) = Some f) ->
  exists pre post, f_rows f = pre ++ post /\
    Forall2 same_cells pre (filter (fun r => negb (owned_by u r)) (f_rows existing)) /\
    Forall (fun r => owned_by u r = true) post.
Proof.
  intros [H|H]; apply (merge_current_user_frame existing incoming); exact H.
Qed.

Lemma merge_helpers_keep_other_users_witness :
  exists pre post,
    f_rows (mkFrame ["id"; "user_id"; "name"]%string
              [[("id", Some "b"); ("user_id", Some "u2"); ("name", None)];
               [("id", Some "a"); ("name", Some "A"); ("user_id", Some "u1")]]%string)
      = pre ++ post /\
    Forall2 same_cells pre (filter (fun r => negb (owned_by "u1" r)) (f_rows Fixtures.ex_existing)).
Proof.
  destruct (merge_helpers_keep_other_users Fixtures.ex_existing Fixtures.ex_incoming "u1"
              (mkFrame ["id"; "user_id"; "name"]%string
                 [[("id", Some "b"); ("user_id", Some "u2"); ("name", None)];
                  [("id", Some "a"); ("name", Some "A"); ("user_id", Some "u1")]]%string)
              (or_introl eq_refl)) as [pre [post [H1 [H2 _]]]].
  exists pre, post. split; assumption.
Defined.

(** C9 (counterexample): the owner test compares [user_id.astype(str)]
    with [str(uid)], and a missing [user_id] reads ["nan"]; for
    [uid = "nan"] an existing row with no [user_id] (which differs from
    [uid]) is taken as the user's own and replaced by the incoming row of
    the same id. *)
Lemma merge_replace_takes_unowned_row :
  match _merge_replace_current_user
          (mkFrame ["id"; "user_id"]%string [[("id", Some "a"); ("user_id", None)]]%string)
          (mkFrame ["id"]%string [[("id", Some "a")]]%string)
          (Some "nan"%string) with
  | Some f => ~ exists r, In r (f_rows f) /\
                same_cells r [("id", Some "a"); ("user_id", None)]%string
  | None => False
  end.
Proof.
  vm_compute. intros [r [[<-|[]] Hs]].
  specialize (Hs "user_id"%string). vm_compute in Hs. discriminate Hs.
Qed.

End MergeClaims.

(** ** Properties of settings loading and of the batch writer *)

Module StorageFacts.
Import Storage.

Lemma dict_get_app (k : string) (a b : Dict) :
  dict_get k (a ++ b) = match dict_get k a with Some v => Some v | None => dict_get k b end.
Proof.
  unfold dict_get. induction a as [|[k1 v1] a IH]; simpl; [destruct (find _ b); reflexivity|].
  destruct (String.eqb k1 k); [reflexivity|exact IH].
Qed.

Lemma dict_get_cons (k k1 : string) (v1 : JVal) (d : Dict) :
  dict_get k ((k1, v1) :: d) = if String.eqb k1 k then Some v1 else dict_get k d.
Proof. unfold dict_get. simpl. destruct (String.eqb k1 k); reflexivity. Qed.

Lemma dict_get_setdefault (k k' : string) (v : JVal) (s : Dict) :
  dict_get k (setdefault k' v s) =
  match dict_get k s with Some x => Some x | None => if String.eqb k' k then Some v else None end.
Proof.
  unfold setdefault. destruct (dict_get k' s) eqn:E.
  - destruct (dict_get k s) eqn:Ek; [reflexivity|].
    destruct (String.eqb_spec k' k); [subst; congruence|reflexivity].
  - rewrite dict_get_app, dict_get_cons. destruct (dict_get k s); [reflexivity|].
    destruct (String.eqb k' k); reflexivity.
Qed.

Lemma dict_get_backfill (L s : Dict) (k : string) :
  dict_get k (fold_left (fun s kv => setdefault (fst kv) (snd kv) s) L s) =
  match dict_get k s with Some x => Some x | None => dict_get k L end.
Proof.
  revert s. induction L as [|[k1 v1] L IH]; intro s; simpl.
  - destruct (dict_get k s); reflexivity.
  - rewrite IH, dict_get_setdefault, dict_get_cons.
    destruct (dict_get k s); [reflexivity|].
    destruct (String.eqb k1 k); reflexivity.
Qed.

(** X1: after the local [load_settings], a key holds the value the file
    stored, else the value of [DEFAULT_SETTINGS]; a missing or unreadable
    file gives the defaults. *)
Theorem load_settings_local_get (file : option Dict) (k : string) :
  dict_get k (load_settings_local file) =
  match dict_get k (match file with Some d => d | None => DEFAULT_SETTINGS end) with
  | Some v => Some v
  | None => dict_get k DEFAULT_SETTINGS
  end.
Proof. unfold load_settings_local. apply dict_get_backfill. Qed.

Lemma dict_get_map_override_some (k : string) (a b : Dict) va :
  dict_get k a = Some va ->
  dict_get k (map (fun kv => match dict_get (fst kv) b with
                             | Some v => (fst kv, v) | None => kv end) a) =
  Some (match dict_get k b with Some v => v | None => va end).
Proof.
  induction a as [|[k1 v1] a IH]; [discriminate|].
  rewrite dict_get_cons. simpl.
  destruct (String.eqb_spec k1 k) as [->|Hne].
  - intro H. injection H as <-. destruct (dict_get k b); rewrite dict_get_cons, String.eqb_refl;
      reflexivity.
  - intro H. destruct (dict_get k1 b); rewrite dict_get_cons;
      (destruct (String.eqb_spec k1 k); [contradiction|]); apply IH, H.
Qed.

Lemma dict_get_map_override_none (k : string) (a b : Dict) :
  dict_get k a = None ->
  dict_get k (map (fun kv => match dict_get (fst kv) b with
                             | Some v => (fst kv, v) | None => kv end) a) = None.
Proof.
  induction a as [|[k1 v1] a IH]; [reflexivity|].
  rewrite dict_get_cons. simpl.
  destruct (String.eqb_spec k1 k) as [->|Hne]; [discriminate|].
  intro H. destruct (dict_get k1 b); rewrite dict_get_cons;
    (destruct (String.eqb_spec k1 k); [contradiction|]); apply IH, H.
Qed.

Lemma dict_get_filter_new (k : string) (a b : Dict) :
  dict_get k a = None ->
  dict_get k (filter (fun kv => match dict_get (fst kv) a with Some _ => false | None => true end) b) =
  dict_get k b.
Proof.
  intro Ha. induction b as [|[k2 v2] b IH]; [reflexivity|]. simpl.
  destruct (String.eqb_spec k2 k) as [->|Hne].
  - rewrite Ha, !dict_get_cons, String.eqb_refl. reflexivity.
  - rewrite (dict_get_cons k k2). destruct (String.eqb_spec k2 k); [contradiction|].
    destruct (dict_get k2 a); [exact IH|].
    rewrite dict_get_cons. destruct (String.eqb_spec k2 k); [contradiction|exact IH].
Qed.

Lemma dict_get_merge (k : string) (a b : Dict) :
  dict_get k (dict_merge a b) =
  match dict_get k b with Some v => Some v | None => dict_get k a end.
Proof.
  unfold dict_merge. rewrite dict_get_app.
  destruct (dict_get k a) eqn:Ea.
  - rewrite (dict_get_map_override_some _ _ _ _ Ea). destruct (dict_get k b); reflexivity.
  - rewrite (dict_get_map_override_none _ _ _ Ea), (dict_get_filter_new _ _ _ Ea).
    destruct (dict_get k b); reflexivity.
Qed.

(** X2: the two ways [load_settings] can read a stored settings document,
    the local backfill with [setdefault] and the Firestore
    [{**DEFAULT_SETTINGS, **data}], give every key the same value. *)
Theorem load_settings_backends_agree (d : Dict) (k : string) :
  dict_get k (load_settings_local (Some d)) = dict_get k (_firestore_load_settings (Some d)).
Proof.
  rewrite load_settings_local_get. simpl. rewrite dict_get_merge. reflexivity.
Qed.

Lemma dict_get_in_keys (k : string) (d : Dict) :
  In k (map fst d) -> exists v, dict_get k d = Some v.
Proof.
  induction d as [|[k1 v1] d IH]; simpl; [tauto|].
  rewrite dict_get_cons. intros [->|H].
  - rewrite String.eqb_refl. eexists; reflexivity.
  - destruct (String.eqb k1 k); [eexists; reflexivity|apply IH, H].
Qed.

(** X3: whichever path [load_settings] takes (Firestore document, missing
    Firestore document, failed fetch, local file, missing file), every key
    of [DEFAULT_SETTINGS] is bound in the result. *)
Theorem load_settings_has_defaults use_firebase firestore file (k : string) :
  In k (map fst DEFAULT_SETTINGS) ->
  exists v, dict_get k (load_settings use_firebase firestore file) = Some v.
Proof.
  intro Hk. destruct (dict_get_in_keys _ _ Hk) as [v0 Hv0].
  assert (Hloc : exists v, dict_get k (load_settings_local file) = Some v).
  { rewrite load_settings_local_get.
    destruct (dict_get k (match file with Some d => d | None => DEFAULT_SETTINGS end));
      [eexists; reflexivity|]. rewrite Hv0. eexists; reflexivity. }
  destruct use_firebase, firestore as [[data|]|]; simpl; try exact Hloc.
  - rewrite dict_get_merge. destruct (dict_get k data); [eexists; reflexivity|].
    rewrite Hv0. eexists; reflexivity.
  - exists v0. exact Hv0.
Qed.

Lemma load_settings_has_defaults_witness :
  exists v, dict_get "tests_weight" (load_settings false None
               (Some [("logs_weight", JNum (1 # 2))]%string)) = Some v.
Proof.
  apply load_settings_has_defaults. vm_compute. right; right; right; left; reflexivity.
Defined.

Lemma firstn_add {A} (n m : nat) (l : list A) :
  firstn (n + m) l = firstn n l ++ firstn m (skipn n l).
Proof.
  revert l. induction n as [|n IH]; intro l; [reflexivity|].
  destruct l as [|x l]; simpl; [destruct m; reflexivity|]. f_equal. apply IH.
Qed.

Lemma concat_chunks {A} (c m : nat) (l : list A) :
  List.concat (map (fun k => firstn c (skipn (k * c) l)) (seq 0 m)) = firstn (m * c) l.
Proof.
  induction m as [|m IH]; [reflexivity|].
  rewrite seq_S, map_app, concat_app, IH. simpl. rewrite app_nil_r.
  replace (c + m * c)%nat with (m * c + c)%nat by lia. symmetry. apply firstn_add.
Qed.


(** X4: [_firestore_write_collection] commits every row exactly once and
    in order: the batches concatenate to the frame's rows, and each batch
    holds between 1 and 400 rows (under Firestore's 500-write limit). *)
Theorem write_batches_cover {A} (rows : list A) :
  List.concat (write_batches rows) = rows /\
  Forall (fun b => (0 < List.length b <= CHUNK)%nat) (write_batches rows).
Proof.
  unfold write_batches, py_range_step. rewrite map_map.
  rewrite (map_ext _ (fun k => firstn CHUNK (skipn (k * CHUNK) rows))) by (intro; reflexivity).
  set (n := List.length rows).
  set (m := ((n - 0 + CHUNK - 1) / CHUNK)%nat).
  assert (Hup : (m * CHUNK <= n + CHUNK - 1)%nat).
  { unfold m. rewrite Nat.sub_0_r, Nat.mul_comm. apply Nat.Div0.mul_div_le. }
  assert (Hlo : (n <= m * CHUNK)%nat).
  { unfold m. rewrite Nat.sub_0_r.
    pose proof (Nat.div_mod (n + CHUNK - 1) CHUNK ltac:(unfold CHUNK; lia)) as Hd.
    pose proof (Nat.mod_upper_bound (n + CHUNK - 1) CHUNK ltac:(unfold CHUNK; lia)) as Hm.
    unfold CHUNK in *. lia. }
  split.
  - rewrite concat_chunks. apply firstn_all2. exact Hlo.
  - apply Forall_forall. intros b Hb. apply in_map_iff in Hb as [k [<- Hk]].
    apply in_seq in Hk. rewrite length_firstn, length_skipn. fold n.
    assert (k * CHUNK < n)%nat by (unfold CHUNK in *; nia).
    unfold CHUNK in *. lia.
Qed.

End StorageFacts.

(** ** Properties of the merge helpers *)

Module MergeFacts.
Import Merge MergeClaims.

Lemma cell_eqb_iff (a b : Cell) : cell_eqb a b = true <-> a = b.
Proof.
  destruct a as [x|], b as [y|]; simpl; try (split; congruence).
  rewrite String.eqb_eq. split; congruence.
Qed.

Lemma lookup_set_cell_other (c c' : string) (v : Cell) (r : Row) :
  c <> c' -> lookup c (set_cell c' v r) = lookup c r.
Proof.
  intro Hne. unfold set_cell, lookup. destruct (existsb _ r).
  - induction r as [|[k w] r IH]; simpl; [reflexivity|].
    destruct (String.eqb_spec k c') as [->|Hk]; simpl.
    + destruct (String.eqb_spec c' c); [congruence|]. exact IH.
    + destruct (String.eqb k c); [reflexivity|exact IH].
  - induction r as [|[k w] r IH]; simpl.
    + destruct (String.eqb_spec c' c); [congruence|reflexivity].
    + destruct (String.eqb k c); [reflexivity|exact IH].
Qed.

Lemma owned_by_pad (u : string) (r : Row) (ms : list string) :
  owned_by u (r ++ map (fun c => (c, None)) ms) = owned_by u r.
Proof. unfold owned_by. rewrite lookup_pad. reflexivity. Qed.

Lemma existsb_id_false (rows : list Row) (r : Row) :
  existsb (fun r' => cell_eqb (lookup "id" r') (lookup "id" r)) rows = false <->
  Forall (fun r' => lookup "id" r' <> lookup "id" r) rows.
Proof.
  induction rows as [|x rows IH]; simpl; [split; [constructor|reflexivity]|].
  rewrite orb_false_iff, Forall_cons_iff, <- IH.
  destruct (cell_eqb _ _) eqn:E.
  - apply cell_eqb_iff in E. split; [intros [H _]; discriminate|intros [H _]; contradiction].
  - split; intros [_ H]; split; try exact H; try reflexivity.
    intro Heq. apply cell_eqb_iff in Heq. congruence.
Qed.

(** [drop_duplicates(subset=["id"], keep="last")] keeps a row exactly
    when no later row carries its id. *)
Lemma drop_duplicates_last_in (rows : list Row) (r : Row) :
  In r (drop_duplicates_last rows) <->
  exists pre post, rows = pre ++ r :: post /\
                   Forall (fun r' => lookup "id" r' <> lookup "id" r) post.
Proof.
  split.
  - induction rows as [|x rows IH]; simpl; [tauto|].
    destruct (existsb _ rows) eqn:E.
    + intro H. destruct (IH H) as [pre [post [-> Hp]]]. exists (x :: pre), post. split; [reflexivity|exact Hp].
    + intros [<-|H].
      * exists [], rows. split; [reflexivity|]. apply existsb_id_false. exact E.
      * destruct (IH H) as [pre [post [-> Hp]]]. exists (x :: pre), post. split; [reflexivity|exact Hp].
  - intros [pre [post [-> Hp]]]. induction pre as [|x pre IH]; simpl.
    + apply existsb_id_false in Hp. rewrite Hp. left. reflexivity.
    + destruct (existsb _ _); [exact IH|right; exact IH].
Qed.

Lemma drop_duplicates_last_nodup (rows : list Row) :
  NoDup (map (lookup "id") (drop_duplicates_last rows)).
Proof.
  induction rows as [|x rows IH]; simpl; [constructor|].
  destruct (existsb _ rows) eqn:E; [exact IH|].
  simpl. constructor; [|exact IH].
  apply existsb_id_false in E. intro Hin. apply in_map_iff in Hin as [r [Hr Hin]].
  apply drop_duplicates_last_incl in Hin.
  rewrite Forall_forall in E. exact (E r Hin Hr).
Qed.

Lemma drop_duplicates_last_ids (rows : list Row) (r : Row) :
  In r rows -> exists r', In r' (drop_duplicates_last rows) /\ lookup "id" r' = lookup "id" r.
Proof.
  revert r. induction rows as [|x rows IH]; intro r; simpl; [tauto|].
  destruct (existsb _ rows) eqn:E.
  - apply existsb_exists in E as [y [Hy Hyx]]. apply cell_eqb_iff in Hyx.
    intros [<-|H]; [|exact (IH r H)].
    destruct (IH y Hy) as [r' [Hr' Hid]]. exists r'. split; [exact Hr'|congruence].
  - intros [<-|H]; [exists x; split; [left; reflexivity|reflexivity]|].
    destruct (IH r H) as [r' [Hr' Hid]]. exists r'. split; [right; exact Hr'|exact Hid].
Qed.

(** The rows of a successful [merge_current_user], split as the code
    builds them. *)
Lemma merge_current_user_rows existing incoming u f :
  merge_current_user existing incoming u = Some f ->
  let padE := map (fun c => (c, None)) (filter (fun c => negb (mem c (f_cols existing))) (f_cols incoming)) in
  let padI := map (fun c => (c, None)) (filter (fun c => negb (mem c (f_cols incoming))) (f_cols existing)) in
  f_rows f =
    map (fun r => r ++ padE) (filter (fun r => negb (owned_by u r)) (f_rows existing)) ++
    drop_duplicates_last
      (map (fun r => r ++ padE) (filter (owned_by u) (f_rows existing)) ++
       map (fun r => set_cell "user_id" (Some u) (r ++ padI)) (f_rows incoming)).
Proof.
  unfold merge_current_user, align_columns.
  destruct (_ || _); [discriminate|].
  intro H. injection H as <-. cbv zeta. simpl.
  rewrite !MetricsFacts.filter_map_comm, map_map.
  rewrite (filter_ext (fun x => negb (owned_by u (x ++ _))) (fun r => negb (owned_by u r)))
    by (intro r; rewrite owned_by_pad; reflexivity).
  rewrite (filter_ext (fun x => owned_by u (x ++ _)) (owned_by u))
    by (intro r; rewrite owned_by_pad; reflexivity).
  reflexivity.
Qed.

Lemma filter_owned_others (u : string) (ms : list string) (l : list Row) :
  filter (owned_by u) (map (fun r => r ++ map (fun c => (c, None)) ms)
                           (filter (fun r => negb (owned_by u r)) l)) = [].
Proof.
  rewrite MetricsFacts.filter_map_comm.
  rewrite (filter_ext (fun x => owned_by u (x ++ _)) (owned_by u))
    by (intro r; rewrite owned_by_pad; reflexivity).
  induction l as [|r l IH]; simpl; [reflexivity|].
  destruct (owned_by u r) eqn:E; simpl; [exact IH|rewrite E; exact IH].
Qed.

Lemma owned_mine (u : string) (ms : list string) (l : list Row) inc :
  Forall (fun r => owned_by u r = true)
    (drop_duplicates_last
      (map (fun r => r ++ map (fun c => (c, None)) ms) (filter (owned_by u) l) ++
       map (fun r => set_cell "user_id" (Some u) r) inc)).
Proof.
  apply Forall_forall. intros r Hr.
  apply drop_duplicates_last_incl, in_app_or in Hr as [Hr|Hr].
  - apply in_map_iff in Hr as [r0 [<- Hr0]]. apply filter_In in Hr0.
    rewrite owned_by_pad. exact (proj2 Hr0).
  - apply in_map_iff in Hr as [r0 [<- _]]. unfold owned_by.
    rewrite lookup_set_cell. apply String.eqb_refl.
Qed.

Lemma filter_all {A} (p : A -> bool) (l : list A) :
  Forall (fun x => p x = true) l -> filter p l = l.
Proof. induction 1 as [|x l Hx _ IH]; simpl; [reflexivity|]. rewrite Hx, IH. reflexivity. Qed.

Lemma filter_owned_result existing incoming u f :
  merge_current_user existing incoming u = Some f ->
  let padE := map (fun c => (c, None)) (filter (fun c => negb (mem c (f_cols existing))) (f_cols incoming)) in
  let padI := map (fun c => (c, None)) (filter (fun c => negb (mem c (f_cols incoming))) (f_cols existing)) in
  filter (owned_by u) (f_rows f) =
    drop_duplicates_last
      (map (fun r => r ++ padE) (filter (owned_by u) (f_rows existing)) ++
       map (fun r => set_cell "user_id" (Some u) (r ++ padI)) (f_rows incoming)).
Proof.
  intro H. pose proof (merge_current_user_rows _ _ _ _ H) as E. cbv zeta in *.
  rewrite E, filter_app, filter_owned_others. simpl.
  apply filter_all. rewrite <- (map_map (fun r => r ++ _) (set_cell "user_id" (Some u))).
  apply owned_mine.
Qed.

Lemma lookup_id_incoming (u : string) (ms : list string) (r : Row) :
  lookup "id" (set_cell "user_id" (Some u) (r ++ map (fun c => (c, None)) ms)) = lookup "id" r.
Proof. rewrite lookup_set_cell_other by discriminate. apply lookup_pad. Qed.

Lemma mem_In (c : string) (l : list string) : mem c l = true <-> In c l.
Proof.
  unfold mem. rewrite existsb_exists. split.
  - intros [x [Hx E]]. apply String.eqb_eq in E. subst. exact Hx.
  - intro H. exists c. split; [exact H|apply String.eqb_refl].
Qed.

Lemma In_ensure_columns (f : Frame) (cols : list string) (c : string) :
  In c (f_cols (ensure_columns f cols)) <-> In c (f_cols f) \/ In c cols.
Proof.
  simpl. rewrite in_app_iff, filter_In. split.
  - intros [H|[H _]]; [left|right]; exact H.
  - intros [H|H]; [left; exact H|].
    destruct (mem c (f_cols f)) eqn:E.
    + left. apply mem_In. exact E.
    + right. split; [exact H|reflexivity].
Qed.

Lemma mem_ensure_columns (f : Frame) (cols : list string) (c : string) :
  mem c (f_cols (ensure_columns f cols)) = mem c (f_cols f) || mem c cols.
Proof.
  apply eq_true_iff_eq. rewrite orb_true_iff, !mem_In. apply In_ensure_columns.
Qed.

(** X5: [_align_columns(a, b)] gives both frames the union of the two
    column sets, and changes no row: every cell reads as before (a new
    column reads NaN). *)
Theorem align_columns_union (a b : Frame) :
  (forall c, In c (f_cols (fst (align_columns a b))) <-> In c (f_cols a) \/ In c (f_cols b)) /\
  (forall c, In c (f_cols (snd (align_columns a b))) <-> In c (f_cols a) \/ In c (f_cols b)) /\
  Forall2 same_cells (f_rows (fst (align_columns a b))) (f_rows a) /\
  Forall2 same_cells (f_rows (snd (align_columns a b))) (f_rows b).
Proof.
  unfold align_columns. simpl fst; simpl snd.
  split; [|split; [|split]].
  - intro c. apply In_ensure_columns.
  - intro c. rewrite In_ensure_columns. tauto.
  - apply same_cells_pad.
  - apply same_cells_pad.
Qed.

(** X6: after [_merge_replace_current_user] or [_append_current_user]
    for a user [uid], the rows owned by [uid] carry pairwise distinct ids,
    and every id of an incoming row and of an existing row of [uid] is
    among them. *)
Theorem merge_user_ids_unique existing incoming u f :
  (_merge_replace_current_user existing incoming (Some u) = Some f \/
   _append_current_user existing incoming (Some u) = Some f) ->
  NoDup (map (lookup "id") (filter (owned_by u) (f_rows f))) /\
  (forall r, In r (f_rows incoming) ->
     exists r', In r' (filter (owned_by u) (f_rows f)) /\ lookup "id" r' = lookup "id" r) /\
  (forall r, In r (f_rows existing) -> owned_by u r = true ->
     exists r', In r' (filter (owned_by u) (f_rows f)) /\ lookup "id" r' = lookup "id" r).
Proof.
  intro H. assert (H' : merge_current_user existing incoming u = Some f) by (destruct H; exact H).
  rewrite (filter_owned_result _ _ _ _ H'). split; [|split].
  - apply drop_duplicates_last_nodup.
  - intros r Hr. match goal with |- context [drop_duplicates_last ?L] => set (LL := L) end.
    destruct (drop_duplicates_last_ids LL (set_cell "user_id" (Some u)
                (r ++ map (fun c => (c, None))
                   (filter (fun c => negb (mem c (f_cols incoming))) (f_cols existing)))))
      as [r' [Hr' Hid]].
    + apply in_or_app. right. apply in_map_iff. exists r. split; [reflexivity|exact Hr].
    + exists r'. split; [exact Hr'|]. rewrite Hid. apply lookup_id_incoming.
  - intros r Hr Ho. match goal with |- context [drop_duplicates_last ?L] => set (LL := L) end.
    destruct (drop_duplicates_last_ids LL (r ++ map (fun c => (c, None))
                   (filter (fun c => negb (mem c (f_cols existing))) (f_cols incoming))))
      as [r' [Hr' Hid]].
    + apply in_or_app. left. apply in_map_iff. exists r. split; [reflexivity|].
      apply filter_In. split; assumption.
    + exists r'. split; [exact Hr'|]. rewrite Hid. apply lookup_pad.
Qed.

Lemma merge_user_ids_unique_witness :
  NoDup (map (lookup "id") (filter (owned_by "u1")
    [[("id", Some "b"); ("user_id", Some "u2"); ("name", None)];
     [("id", Some "a"); ("name", Some "A"); ("user_id", Some "u1")]]%string)).
Proof.
  destruct (merge_user_ids_unique Fixtures.ex_existing Fixtures.ex_incoming "u1"
              (mkFrame ["id"; "user_id"; "name"]%string
                 [[("id", Some "b"); ("user_id", Some "u2"); ("name", None)];
                  [("id", Some "a"); ("name", Some "A"); ("user_id", Some "u1")]]%string)
              (or_intror eq_refl)) as [H _].
  exact H.
Defined.

(** X7: for a user [uid], the last incoming row carrying a given id is in
    the result of either helper, with every cell as sent except
    [user_id], which is [uid]. *)
Theorem merge_last_incoming_wins existing incoming u f pre r post :
  (_merge_replace_current_user existing incoming (Some u) = Some f \/
   _append_current_user existing incoming (Some u) = Some f) ->
  f_rows incoming = pre ++ r :: post ->
  Forall (fun r' => lookup "id" r' <> lookup "id" r) post ->
  exists r', In r' (f_rows f) /\ lookup "user_id" r' = Some u /\
             forall c, c <> "user_id"%string -> lookup c r' = lookup c r.
Proof.
  intros H Hi Hpost. assert (H' : merge_current_user existing incoming u = Some f) by (destruct H; exact H).
  set (g := fun r0 : Row => set_cell "user_id" (Some u)
              (r0 ++ map (fun c => (c, None))
                 (filter (fun c => negb (mem c (f_cols incoming))) (f_cols existing)))).
  exists (g r). split; [|split].
  - rewrite (merge_current_user_rows _ _ _ _ H'). apply in_or_app. right.
    apply drop_duplicates_last_in.
    fold g. rewrite Hi, map_app. simpl.
    eexists (_ ++ map g pre), (map g post). split; [rewrite <- app_assoc; reflexivity|].
    apply Forall_map. unfold g at 2. rewrite lookup_id_incoming.
    eapply Forall_impl; [|exact Hpost]. intros r' Hr'. unfold g. rewrite lookup_id_incoming. exact Hr'.
  - apply lookup_set_cell.
  - intros c Hc. unfold g. rewrite lookup_set_cell_other by exact Hc. apply lookup_pad.
Qed.

Lemma merge_last_incoming_wins_witness :
  exists r', In r' [[("id", Some "b"); ("user_id", Some "u2"); ("name", None)];
                    [("id", Some "a"); ("name", Some "A"); ("user_id", Some "u1")]]%string /\
             lookup "user_id" r' = Some "u1"%string.
Proof.
  destruct (merge_last_incoming_wins Fixtures.ex_existing Fixtures.ex_incoming "u1"
              (mkFrame ["id"; "user_id"; "name"]%string
                 [[("id", Some "b"); ("user_id", Some "u2"); ("name", None)];
                  [("id", Some "a"); ("name", Some "A"); ("user_id", Some "u1")]]%string)
              [] [("id", Some "a"); ("name", Some "A")]%string []
              (or_introl eq_refl) eq_refl (Forall_nil _)) as [r' [Hin [Hu _]]].
  exists r'. split; assumption.
Defined.

(** X8: for a user [uid], an existing row of [uid] whose id no incoming
    row carries, and no later existing row of [uid] carries, stays in the
    result of either helper with all its cells. *)
Theorem merge_keeps_unsent_rows existing incoming u f pre r post :
  (_merge_replace_current_user existing incoming (Some u) = Some f \/
   _append_current_user existing incoming (Some u) = Some f) ->
  f_rows existing = pre ++ r :: post ->
  owned_by u r = true ->
  Forall (fun r' => owned_by u r' = true -> lookup "id" r' <> lookup "id" r) post ->
  Forall (fun r' => lookup "id" r' <> lookup "id" r) (f_rows incoming) ->
  exists r', In r' (f_rows f) /\ same_cells r' r.
Proof.
  intros H He Ho Hpost Hinc.
  assert (H' : merge_current_user existing incoming u = Some f) by (destruct H; exact H).
  set (ms := filter (fun c => negb (mem c (f_cols existing))) (f_cols incoming)).
  exists (r ++ map (fun c => (c, None)) ms). split.
  - rewrite (merge_current_user_rows _ _ _ _ H'). apply in_or_app. right.
    apply drop_duplicates_last_in. fold ms.
    rewrite He, filter_app. simpl. rewrite Ho, map_app. simpl.
    eexists _, _. split; [rewrite <- app_assoc; reflexivity|].
    rewrite lookup_pad. apply Forall_app. split.
    + apply Forall_map. apply Forall_forall. intros r' Hr'. apply filter_In in Hr' as [Hr' Ho'].
      rewrite lookup_pad. rewrite Forall_forall in Hpost. exact (Hpost r' Hr' Ho').
    + apply Forall_map. eapply Forall_impl; [|exact Hinc].
      intros r' Hr'. rewrite lookup_id_incoming. exact Hr'.
  - intro c. apply lookup_pad.
Qed.

Lemma merge_keeps_unsent_rows_witness :
  exists r', In r' [[("id", Some "b"); ("user_id", Some "u2"); ("name", None)];
                    [("id", Some "c"); ("user_id", Some "u1"); ("name", None)];
                    [("id", Some "a"); ("name", Some "A"); ("user_id", Some "u1")]]%string /\
             same_cells r' [("id", Some "c"); ("user_id", Some "u1")]%string.
Proof.
  apply (merge_keeps_unsent_rows
           (mkFrame ["id"; "user_id"]%string
              [[("id", Some "b"); ("user_id", Some "u2")];
               [("id", Some "c"); ("user_id", Some "u1")]]%string)
           Fixtures.ex_incoming "u1"
           (mkFrame ["id"; "user_id"; "name"]%string
              [[("id", Some "b"); ("user_id", Some "u2"); ("name", None)];
               [("id", Some "c"); ("user_id", Some "u1"); ("name", None)];
               [("id", Some "a"); ("name", Some "A"); ("user_id", Some "u1")]]%string)
           [[("id", Some "b"); ("user_id", Some "u2")]]%string
           [("id", Some "c"); ("user_id", Some "u1")]%string []).
  - right. vm_compute. reflexivity.
  - reflexivity.
  - vm_compute. reflexivity.
  - constructor.
  - constructor; [|constructor]. vm_compute. discriminate.
Defined.

(** X9: with no user ([uid] is [None]), [_merge_replace_current_user]
    discards every existing row: the result is the incoming rows, in order
    and with the same cells, under the union of the two column sets. *)
Theorem merge_replace_no_user existing incoming :
  exists f, _merge_replace_current_user existing incoming None = Some f /\
    Forall2 same_cells (f_rows f) (f_rows incoming) /\
    forall c, In c (f_cols f) <-> In c (f_cols existing) \/ In c (f_cols incoming).
Proof.
  destruct (align_columns_union existing incoming) as [_ [Hc [_ Hr]]].
  eexists. split; [reflexivity|]. split; [exact Hr|exact Hc].
Qed.

(** X10: with no user, [_append_current_user] concatenates the existing
    and the incoming rows (aligned on the union of the columns); when
    either frame has an [id] column it then keeps the last row of each id:
    ids are pairwise distinct, no id is lost, and a row is kept exactly
    when no later row of the concatenation has its id; without an [id]
    column every row is kept. *)
Theorem append_no_user existing incoming :
  exists f, _append_current_user existing incoming None = Some f /\
    (mem "id" (f_cols existing) || mem "id" (f_cols incoming) = false ->
     Forall2 same_cells (f_rows f) (f_rows existing ++ f_rows incoming)) /\
    (mem "id" (f_cols existing) || mem "id" (f_cols incoming) = true ->
     NoDup (map (lookup "id") (f_rows f)) /\
     (forall r, In r (f_rows existing ++ f_rows incoming) ->
        exists r', In r' (f_rows f) /\ lookup "id" r' = lookup "id" r) /\
     (forall r, In r (f_rows f) <->
        exists pre post,
          f_rows (fst (align_columns existing incoming)) ++
          f_rows (snd (align_columns existing incoming)) = pre ++ r :: post /\
          Forall (fun r' => lookup "id" r' <> lookup "id" r) post)).
Proof.
  eexists. split; [reflexivity|]. unfold align_columns. cbv beta iota.
  rewrite mem_ensure_columns.
  destruct (align_columns_union existing incoming) as [_ [_ [He Hi]]]. simpl in He, Hi.
  split; intro Hm; rewrite Hm.
  - apply Forall2_app; assumption.
  - split; [apply drop_duplicates_last_nodup|].
    split; [|intro r; apply drop_duplicates_last_in].
    intros r Hr. apply in_app_or in Hr as [Hr|Hr].
    + destruct (drop_duplicates_last_ids
                  (map (fun r0 => r0 ++ map (fun c => (c, None))
                          (filter (fun c => negb (mem c (f_cols existing))) (f_cols incoming)))
                       (f_rows existing) ++
                   map (fun r0 => r0 ++ map (fun c => (c, None))
                          (filter (fun c => negb (mem c (f_cols incoming))) (f_cols existing)))
                       (f_rows incoming))
                  (r ++ map (fun c => (c, None))
                          (filter (fun c => negb (mem c (f_cols existing))) (f_cols incoming))))
        as [r' [Hr' Hid]].
      * apply in_or_app. left. apply in_map_iff. exists r. split; [reflexivity|exact Hr].
      * exists r'. split; [exact Hr'|]. rewrite Hid. apply lookup_pad.
    + destruct (drop_duplicates_last_ids
                  (map (fun r0 => r0 ++ map (fun c => (c, None))
                          (filter (fun c => negb (mem c (f_cols existing))) (f_cols incoming)))
                       (f_rows existing) ++
                   map (fun r0 => r0 ++ map (fun c => (c, None))
                          (filter (fun c => negb (mem c (f_cols incoming))) (f_cols existing)))
                       (f_rows incoming))
                  (r ++ map (fun c => (c, None))
                          (filter (fun c => negb (mem c (f_cols incoming))) (f_cols existing))))
        as [r' [Hr' Hid]].
      * apply in_or_app. right. apply in_map_iff. exists r. split; [reflexivity|exact Hr].
      * exists r'. split; [exact Hr'|]. rewrite Hid. apply lookup_pad.
Qed.

End MergeFacts.

(** ** Properties of the normalisers *)

Module NormalizeFacts.
Import Normalize NormalizeClaims.

Lemma map_combine_snd {A B C} (ids : list A) (df : list B) (F : A * B -> C) (G : B -> C) :
  List.length ids = List.length df -> (forall i r, F (i, r) = G r) ->
  map F (combine ids df) = map G df.
Proof.
  intros Hl HF. revert df Hl. induction ids as [|i ids IH]; intros [|r df] Hl; simpl in *;
    try discriminate; [reflexivity|]. rewrite HF, IH; [reflexivity|lia].
Qed.

(** X11: each normaliser returns one row per input row, in order; with a
    [user_id] every row carries it, without one every row keeps its own
    ([NA] read as the empty string in the subjects frame). *)
Theorem normalizers_rowwise_user rand default_exam uid
    (subjects : list RawSubject) (logs : list RawLog) (tests : list RawTest) :
  map ns_user_id (normalize_subjects_df rand default_exam uid subjects) =
    map (fun r => match uid with Some u => u | None => fillna_str (rs_user_id r) end) subjects /\
  map nl_user_id (normalize_logs_df rand uid logs) =
    map (fun r => match uid with Some u => Some u | None => rl_user_id r end) logs /\
  map nt_user_id (normalize_tests_df rand uid tests) =
    map (fun r => match uid with Some u => Some u | None => rt_user_id r end) tests.
Proof.
  unfold normalize_subjects_df, normalize_logs_df, normalize_tests_df. rewrite !map_map.
  split; [|split]; apply map_combine_snd; try (intros; reflexivity);
    rewrite length_normalize_ids, length_map; reflexivity.
Qed.

Lemma clip_bounds (lo hi x : Z) : (lo <= hi)%Z -> (lo <= clip lo hi x <= hi)%Z.
Proof. unfold clip. lia. Qed.

(** X12: after [normalize_logs_df] and [normalize_tests_df] every score is
    NaN or lies in [0, 100], a score already in range is left unchanged,
    and every test difficulty lies in [1, 5]. *)
Theorem normalized_value_ranges rand uid (logs : list RawLog) (tests : list RawTest) :
  Forall2 (fun r n => match nl_score n with
                      | Some x => 0 <= x <= 100 /\ rl_score r = Some x
                      | None => match rl_score r with Some y => y < 0 \/ 100 < y | None => True end
                      end) logs (normalize_logs_df rand uid logs) /\
  Forall2 (fun r n => match nt_score n with
                      | Some x => 0 <= x <= 100 /\
                                  (forall y, rt_score r = Some y -> 0 <= y <= 100 -> x == y)
                      | None => rt_score r = None
                      end /\ (1 <= nt_difficulty n <= 5)%Z) tests (normalize_tests_df rand uid tests).
Proof.
  split.
  - unfold normalize_logs_df.
    assert (Hl : List.length (normalize_ids rand (map rl_id logs)) = List.length logs)
      by (rewrite length_normalize_ids, length_map; reflexivity).
    revert Hl. generalize (normalize_ids rand (map rl_id logs)).
    induction logs as [|r logs IH]; intros [|i ids] Hl; simpl in *; try discriminate; constructor.
    + unfold norm_log_score. destruct (rl_score r) as [x|]; [|exact I].
      destruct (Qlt_bool x 0) eqn:E0; [left; apply Qlt_bool_iff; exact E0|].
      destruct (Qlt_bool 100 x) eqn:E1; [right; apply Qlt_bool_iff; exact E1|].
      simpl. split; [|reflexivity]. split.
      * apply Qnot_lt_le. intro H. apply Qlt_bool_iff in H. congruence.
      * apply Qnot_lt_le. intro H. apply Qlt_bool_iff in H. congruence.
    + apply IH. lia.
  - unfold normalize_tests_df.
    assert (Hl : List.length (normalize_ids rand (map rt_id tests)) = List.length tests)
      by (rewrite length_normalize_ids, length_map; reflexivity).
    revert Hl. generalize (normalize_ids rand (map rt_id tests)).
    induction tests as [|r tests IH]; intros [|i ids] Hl; cbn [combine map List.length] in *;
      try discriminate; constructor.
    + split; [|cbn [nt_difficulty]; apply clip_bounds; discriminate].
      unfold norm_test_score. destruct (rt_score r) as [x|]; [|reflexivity].
      destruct (Qclip_bounds x) as [Hb _]. split; [exact Hb|].
      intros y Hy Hr. injection Hy as <-. unfold Qclip.
      rewrite Q.max_r by apply Hr. rewrite Q.min_r by apply Hr. reflexivity.
    + apply IH. lia.
Qed.

Lemma assign_ids_fresh_order rand k (ids : list string) :
  map snd (filter (fun p => strip_is_empty (fst p)) (combine ids (assign_ids rand k ids))) =
  map (fun j => uuid_str (rand j)) (seq k (List.length (filter strip_is_empty ids))).
Proof.
  revert k. induction ids as [|i ids IH]; intro k; simpl; [reflexivity|].
  destruct (strip_is_empty i) eqn:E; simpl; rewrite E; simpl; rewrite IH; reflexivity.
Qed.

Lemma filter_combine_fillna (ids : list (option string)) (os : list string) :
  map snd (filter (fun p => strip_is_empty (fillna_str (fst p))) (combine ids os)) =
  map snd (filter (fun p => strip_is_empty (fst p)) (combine (map fillna_str ids) os)).
Proof.
  revert os. induction ids as [|i ids IH]; intros [|o os]; simpl; try reflexivity.
  destruct (strip_is_empty (fillna_str i)); simpl; rewrite IH; reflexivity.
Qed.

Lemma normalize_ids_fresh_order rand (ids : list (option string)) :
  map snd (filter (fun p => strip_is_empty (fillna_str (fst p))) (combine ids (normalize_ids rand ids))) =
  map (fun j => uuid_str (rand j))
      (seq 0 (List.length (filter (fun i => strip_is_empty (fillna_str i)) ids))).
Proof.
  rewrite filter_combine_fillna. unfold normalize_ids. rewrite assign_ids_fresh_order.
  rewrite MetricsFacts.filter_map_comm, length_map. reflexivity.
Qed.

(** X13: the rows whose id is missing, empty or whitespace receive, in row
    order, the strings of the first, second, third... [uuid.uuid4()]
    values drawn, one draw per such row and none for the others. *)
Theorem fresh_ids_in_row_order rand default_exam uid
    (subjects : list RawSubject) (logs : list RawLog) (tests : list RawTest) :
  map snd (filter (fun p => strip_is_empty (fillna_str (fst p)))
             (combine (map rs_id subjects) (map ns_id (normalize_subjects_df rand default_exam uid subjects)))) =
    map (fun j => uuid_str (rand j))
        (seq 0 (List.length (filter (fun r => strip_is_empty (fillna_str (rs_id r))) subjects))) /\
  map snd (filter (fun p => strip_is_empty (fillna_str (fst p)))
             (combine (map rl_id logs) (map nl_id (normalize_logs_df rand uid logs)))) =
    map (fun j => uuid_str (rand j))
        (seq 0 (List.length (filter (fun r => strip_is_empty (fillna_str (rl_id r))) logs))) /\
  map snd (filter (fun p => strip_is_empty (fillna_str (fst p)))
             (combine (map rt_id tests) (map nt_id (normalize_tests_df rand uid tests)))) =
    map (fun j => uuid_str (rand j))
        (seq 0 (List.length (filter (fun r => strip_is_empty (fillna_str (rt_id r))) tests))).
Proof.
  rewrite subject_ids, log_ids, test_ids, !normalize_ids_fresh_order.
  rewrite !MetricsFacts.filter_map_comm, !length_map. split; [|split]; reflexivity.
Qed.

End NormalizeFacts.

(** ** Properties of the metrics table *)

Module MetricsExtra.
Import Metrics MetricsFacts.

Lemma sum_count_bounds (xs : list (option Q)) :
  (forall x, In (Some x) xs -> 0 <= x <= 100) ->
  0 <= sum_skipna xs /\ sum_skipna xs <= 100 * inject_Z (Z.of_nat (count_notna xs)).
Proof.
  induction xs as [|[x|] xs IH]; intro H; cbn [sum_skipna count_notna].
  - split; [apply Qle_refl|]. unfold inject_Z. simpl. lra.
  - destruct (H x (or_introl eq_refl)) as [H0 H1].
    destruct (IH (fun y Hy => H y (or_intror Hy))) as [I0 I1].
    rewrite Nat2Z.inj_succ, <- Z.add_1_r, inject_Z_plus. unfold inject_Z at 2. lra.
  - apply IH. intros y Hy. apply H. right. exact Hy.
Qed.

Lemma mean_skipna_bounds (xs : list (option Q)) (m : Q) :
  (forall x, In (Some x) xs -> 0 <= x <= 100) ->
  mean_skipna xs = Some m -> 0 <= m <= 100.
Proof.
  intros H Hm. destruct (sum_count_bounds xs H) as [H0 H1].
  unfold mean_skipna in Hm. destruct (count_notna xs) as [|n] eqn:E; [discriminate|].
  injection Hm as <-.
  assert (Hd : 0 < inject_Z (Z.of_nat (S n))) by (unfold Qlt; simpl; lia).
  split.
  - apply Qle_shift_div_l; [exact Hd|]. rewrite Qmult_0_l. exact H0.
  - apply Qle_shift_div_r; [exact Hd|]. exact H1.
Qed.

Lemma scores_of_filter {A} (p : A -> bool) (sc : A -> option Q) (l : list A) :
  (forall a x, In a l -> sc a = Some x -> 0 <= x <= 100) ->
  forall x, In (Some x) (map sc (filter p l)) -> 0 <= x <= 100.
Proof.
  intros H x Hx. apply in_map_iff in Hx as [a [Ha Hin]]. apply filter_In in Hin.
  exact (H a x (proj1 Hin) Ha).
Qed.

Lemma weighted_avg_bounds (wl wt : Q) (la ta : option Q) :
  0 <= wl -> 0 <= wt -> wl + wt <= 1 ->
  (forall x, la = Some x -> 0 <= x <= 100) ->
  (forall x, ta = Some x -> 0 <= x <= 100) ->
  0 <= weighted_avg wl wt la ta <= 100.
Proof.
  intros Hl Ht Hs Ha Hb. unfold weighted_avg.
  destruct la as [x|], ta as [y|].
  - destruct (Ha x eq_refl), (Hb y eq_refl). split; nra.
  - exact (Ha x eq_refl).
  - exact (Hb y eq_refl).
  - split; discriminate.
Qed.

(** X14: when every log and test score is NaN or in [0, 100] and the
    effective weights are non-negative with a sum of at most 1, every row
    of [compute_metrics] has an [avg_score] in [0, 100] and, for a
    non-negative priority, a [priority_gap] between 0 and the priority. *)
Theorem compute_metrics_score_bounds settings today subjects logs tests m :
  0 <= get_or (logs_weight settings) (7 # 10) ->
  0 <= get_or (tests_weight settings) (Qmax 0 (1 - get_or (logs_weight settings) (7 # 10))) ->
  get_or (logs_weight settings) (7 # 10) +
    get_or (tests_weight settings) (Qmax 0 (1 - get_or (logs_weight settings) (7 # 10))) <= 1 ->
  (forall l x, In l logs -> l_score l = Some x -> 0 <= x <= 100) ->
  (forall t x, In t tests -> t_score t = Some x -> 0 <= x <= 100) ->
  In m (compute_metrics settings today subjects logs tests) ->
  0 <= m_avg_score m <= 100 /\
  (0 <= m_priority m -> 0 <= m_priority_gap m <= m_priority m).
Proof.
  intros Hl Ht Hs Hlog Htest Hm. rewrite compute_metrics_rows in Hm.
  apply in_map_iff in Hm as [s [<- _]]. unfold metric_of. cbv zeta. simpl.
  assert (Ha : 0 <= weighted_avg (get_or (logs_weight settings) (7 # 10))
                 (get_or (tests_weight settings) (Qmax 0 (1 - get_or (logs_weight settings) (7 # 10))))
                 (mean_skipna (map l_score (logs_of logs (s_id s))))
                 (mean_skipna (map t_score (tests_of tests (s_id s)))) <= 100).
  { apply weighted_avg_bounds; try assumption; intros x Hx; refine (mean_skipna_bounds _ _ _ Hx);
      apply scores_of_filter; assumption. }
  split; [exact Ha|]. intro Hp.
  set (a := weighted_avg _ _ _ _) in *.
  assert (Hq0 : 0 <= a / 100) by (apply Qle_shift_div_l; [reflexivity|lra]).
  assert (Hq1 : a / 100 <= 1) by (apply Qle_shift_div_r; [reflexivity|lra]).
  split; nra.
Qed.

Lemma compute_metrics_score_bounds_witness :
  0 <= m_avg_score (metric_of Fixtures.cfg 739400 [Fixtures.log_s2] [Fixtures.test_s2] Fixtures.s2) <= 100.
Proof.
  apply (compute_metrics_score_bounds Fixtures.cfg 739400 [Fixtures.s2] [Fixtures.log_s2] [Fixtures.test_s2]).
  - vm_compute. discriminate.
  - vm_compute. discriminate.
  - vm_compute. discriminate.
  - intros l x [<-|[]] Hx. injection Hx as <-. split; discriminate.
  - intros t x [<-|[]] Hx. injection Hx as <-. split; discriminate.
  - rewrite compute_metrics_rows. left. reflexivity.
Defined.

(** X15: under the same conditions on scores and weights, and when every
    subject has non-negative credits and a confidence of at most 10, the
    [weighted_readiness] of the [compute_metrics] table lies in [0, 1]. *)
Theorem readiness_of_metrics_in_unit settings today subjects logs tests :
  0 <= get_or (logs_weight settings) (7 # 10) ->
  0 <= get_or (tests_weight settings) (Qmax 0 (1 - get_or (logs_weight settings) (7 # 10))) ->
  get_or (logs_weight settings) (7 # 10) +
    get_or (tests_weight settings) (Qmax 0 (1 - get_or (logs_weight settings) (7 # 10))) <= 1 ->
  (forall l x, In l logs -> l_score l = Some x -> 0 <= x <= 100) ->
  (forall t x, In t tests -> t_score t = Some x -> 0 <= x <= 100) ->
  (forall s, In s subjects -> 0 <= s_credits s /\ s_confidence s <= 10) ->
  0 <= weighted_readiness (compute_metrics settings today subjects logs tests) <= 1.
Proof.
  intros Hl Ht Hs Hlog Htest Hsub.
  set (ms := compute_metrics settings today subjects logs tests).
  assert (Hall : forall m, In m ms -> 0 <= m_priority m /\ 0 <= m_avg_score m <= 100).
  { intros m Hm. split.
    - unfold ms in Hm. rewrite compute_metrics_rows in Hm.
      apply in_map_iff in Hm as [s [<- Hin]]. destruct (Hsub s Hin) as [Hc Hf].
      simpl. unfold calc_priority. apply Qmult_le_0_compat; lra.
    - exact (proj1 (compute_metrics_score_bounds settings today subjects logs tests m
                      Hl Ht Hs Hlog Htest Hm)). }
  destruct (MetricsClaims.readiness_sums_bounded ms Hall) as [H0 H1].
  clearbody ms. destruct ms as [|m ms]; [split; discriminate|].
  change (0 <= (if Qeq_bool (readiness_den (m :: ms)) 0 then 0
                else readiness_num (m :: ms) / readiness_den (m :: ms)) <= 1).
  destruct (Qeq_bool _ 0) eqn:E; [split; discriminate|].
  assert (Hpos : 0 < readiness_den (m :: ms)).
  { apply Qnot_le_lt. intro Hle.
    assert (Hd : readiness_den (m :: ms) == 0) by lra.
    apply Qeq_bool_iff in Hd. congruence. }
  split.
  - apply Qle_shift_div_l; [exact Hpos|]. rewrite Qmult_0_l. exact H0.
  - apply Qle_shift_div_r; [exact Hpos|]. rewrite Qmult_1_l. exact H1.
Qed.

Lemma readiness_of_metrics_in_unit_witness :
  0 <= weighted_readiness (compute_metrics Fixtures.cfg 739400 [Fixtures.s1; Fixtures.s2]
                             [Fixtures.log_s2] [Fixtures.test_s2]) <= 1.
Proof.
  apply readiness_of_metrics_in_unit.
  - vm_compute. discriminate.
  - vm_compute. discriminate.
  - vm_compute. discriminate.
  - intros l x [<-|[]] Hx. injection Hx as <-. split; discriminate.
  - intros t x [<-|[]] Hx. injection Hx as <-. split; discriminate.
  - intros s [<-|[<-|[]]]; split; discriminate.
Defined.

Lemma sum_skipna_nonneg (xs : list (option Q)) :
  (forall x, In (Some x) xs -> 0 <= x) -> 0 <= sum_skipna xs.
Proof.
  induction xs as [|[x|] xs IH]; intro H; simpl; [apply Qle_refl| |].
  - pose proof (H x (or_introl eq_refl)). pose proof (IH (fun y Hy => H y (or_intror Hy))). lra.
  - apply IH. intros y Hy. apply H. right. exact Hy.
Qed.

(** X16: a row's [hours] is the total of the non-NaN hours of the log rows
    of its subject (0 when there is none), and it is non-negative when no
    log row has negative hours. *)
Theorem compute_metrics_hours settings today subjects logs tests m :
  In m (compute_metrics settings today subjects logs tests) ->
  m_hours m = sum_skipna (map l_hours (logs_of logs (s_id (m_subj m)))) /\
  ((forall l x, In l logs -> l_hours l = Some x -> 0 <= x) -> 0 <= m_hours m).
Proof.
  intro Hm. rewrite compute_metrics_rows in Hm.
  apply in_map_iff in Hm as [s [<- _]]. simpl. split; [reflexivity|].
  intro H. apply sum_skipna_nonneg. intros x Hx.
  apply in_map_iff in Hx as [l [Hl Hin]]. apply filter_In in Hin.
  exact (H l x (proj1 Hin) Hl).
Qed.

Lemma compute_metrics_hours_witness :
  m_hours (metric_of Fixtures.cfg 739400 [Fixtures.log_s2] [] Fixtures.s2) =
    sum_skipna (map l_hours (logs_of [Fixtures.log_s2] "s2")).
Proof.
  apply (proj1 (compute_metrics_hours Fixtures.cfg 739400 [Fixtures.s2] [Fixtures.log_s2] []
                  (metric_of Fixtures.cfg 739400 [Fixtures.log_s2] [] Fixtures.s2)
                  ltac:(rewrite compute_metrics_rows; left; reflexivity))).
Defined.

End MetricsExtra.

(** ** Document ids of the Firestore writer *)

Module WriteFacts.
Import Merge MergeClaims MergeFacts Storage StorageFacts.










(** [str.strip()] removes U+00A0 and U+3000 around an id. *)
Example py_strip_unicode :
  py_strip (String (ascii_of_nat 194) (String (ascii_of_nat 160)
              (String "a" (String (ascii_of_nat 227) (String (ascii_of_nat 128)
                 (String (ascii_of_nat 128) EmptyString)))))) = "a"%string.
Proof. vm_compute. reflexivity. Qed.











End WriteFacts.
